(** * LeetScrape: the question fetcher of [src/leetscrape/question.py]

    A shallow embedding of class [GetQuestion]: the static method
    [fetch_all_questions_id_and_stub], the constructor, the method [scrape]
    and its three helpers.  Python values parsed from JSON are kept
    untyped, as the code has them; HTTP traffic, sleeping, parsing of a
    response body and warnings are recorded in a trace; exceptions are
    results; the unbounded [while] loop of [scrape] runs on fuel. *)

From Stdlib Require Import ZArith List String Ascii Bool Lia.
From Stdlib Require Import Sorted Permutation DecimalString.
Import ListNotations.

Set Warnings "-register-all".

Local Open Scope string_scope.
Local Open Scope Z_scope.

(** ** Python values *)

(** What [json.loads] and [response.json()] return.  Objects keep their
    members as an association list; a key is looked up from the left. *)
Inductive json : Type :=
| JNull
| JBool (b : bool)
| JNum (n : Z)
| JStr (s : string)
| JArr (items : list json)
| JObj (members : list (string * json)).

(** The exceptions this file can raise.  [HTTPError] is the one of
    [response.raise_for_status()], [JSONDecodeError] the one of
    [json.loads] and [response.json()], [KeyError] carries the key that
    was looked for (in a dict, in the index or among the columns of a
    frame), [NotImplementedError] is what [json_normalize] answers to a
    value it cannot make a frame of. *)
Inductive exn : Type :=
| ValueError (msg : string)
| HTTPError (status : Z)
| JSONDecodeError
| KeyError (key : json)
| TypeError
| NotImplementedError.

(** Outcome of a computation: a value, an exception, or no answer yet
    when the fuel of a loop is used up. *)
Inductive res (A : Type) : Type :=
| Ret (a : A)
| Raise (e : exn)
| OutOfFuel.
Arguments Ret {A} a.
Arguments Raise {A} e.
Arguments OutOfFuel {A}.

Module Py.

Fixpoint assoc (k : string) (m : list (string * json)) : option json :=
  match m with
  | [] => None
  | (k', v) :: m' => if String.eqb k k' then Some v else assoc k m'
  end.

(** [d[k]] for a string key [k]: only a dict can be indexed by a
    string; a missing key is a [KeyError]. *)
Definition getitem (d : json) (k : string) : res json :=
  match d with
  | JObj m =>
      match assoc k m with
      | Some v => Ret v
      | None => Raise (KeyError (JStr k))
      end
  | _ => Raise TypeError
  end.

Fixpoint chars (s : string) : list json :=
  match s with
  | EmptyString => []
  | String c s' => JStr (String c EmptyString) :: chars s'
  end.

(** The values a [for] loop or a comprehension draws from [v]: the
    items of a list, the keys of a dict, the characters of a string;
    [None], booleans and numbers are not iterable. *)
Definition iter (v : json) : res (list json) :=
  match v with
  | JArr l => Ret l
  | JObj m => Ret (map (fun kv => JStr (fst kv)) m)
  | JStr s => Ret (chars s)
  | _ => Raise TypeError
  end.

(** Truth value of [v] in [if not v]. *)
Definition truthy (v : json) : bool :=
  match v with
  | JNull => false
  | JBool b => b
  | JNum n => negb (n =? 0)
  | JStr s => negb (String.eqb s "")
  | JArr l => match l with [] => false | _ => true end
  | JObj m => match m with [] => false | _ => true end
  end.

(** [v == s] for a string literal [s]. *)
Definition eq_str (v : json) (s : string) : bool :=
  match v with
  | JStr s' => String.eqb s' s
  | _ => false
  end.

(** [str(n)] for an integer. *)
Definition str (n : Z) : string := NilZero.string_of_int (Z.to_int n).

(** [s[:n]]. *)
Definition take (n : nat) (s : string) : string := substring 0 n s.

End Py.

(** ** Pure fallible computations *)

Definition rbind {A B : Type} (r : res A) (f : A -> res B) : res B :=
  match r with
  | Ret a => f a
  | Raise e => Raise e
  | OutOfFuel => OutOfFuel
  end.

(** The element-wise loop of a comprehension; it stops at the first
    element whose body raises. *)
Fixpoint rmap {A B : Type} (f : A -> res B) (l : list A) : res (list B) :=
  match l with
  | [] => Ret []
  | a :: l' => rbind (f a) (fun b => rbind (rmap f l') (fun bs => Ret (b :: bs)))
  end.

(** [[x for x in l if p(x)]] with a test that may raise. *)
Fixpoint rfilter {A : Type} (p : A -> res bool) (l : list A) : res (list A) :=
  match l with
  | [] => Ret []
  | a :: l' =>
      rbind (p a) (fun keep =>
      rbind (rfilter p l') (fun rest =>
      Ret (if keep then a :: rest else rest)))
  end.

(** ** The outside world *)

(** A [requests.Response], as far as this file reads it. *)
Record Response : Type := mkResponse {
  status_code : Z;
  text : string }.

(** [response.ok] and [response.raise_for_status()] of the requests
    library: a status from 400 to 599 is an error, every other one is
    fine. *)
Definition ok (r : Response) : bool :=
  negb ((400 <=? status_code r) && (status_code r <? 600)).

(** What the two endpoints answer: [listing n] to the [n]-th GET of the
    bulk listing, [detail slug n] to the [n]-th POST of the detail query
    when it asks for [slug] (counted from 0 over the whole run). *)
Record Upstream : Type := mkUpstream {
  listing : nat -> Response;
  detail : string -> nat -> Response }.

(** What this module imports and does not define: [json.loads] (also
    behind [response.json()]; [None] stands for a decode error),
    [camel_case] of [._helper], the two templates of [._constants] and
    [str.format] applied to them with one argument. *)
Record Collaborators : Type := mkCollaborators {
  json_loads : string -> option json;
  camel_case : string -> string;
  format : string -> string -> string;
  NO_PYTHON_STUB : string;
  PREMIUM_CUSTOMER_PYTHON_STUB : string }.

(** Calls that leave the process or that a caller can observe. *)
Inductive event : Type :=
| Get (url : string)
| Post (url : string) (slug : string)
| Sleep (seconds : Z)
| Json
| Warn (msg : string).

(** ** Frames *)

(** The frame [question_data]: one row per record, columns [QID] and
    [titleSlug] in this order. *)
Definition DataFrame : Type := list (Z * string).

(** The same rows once [titleSlug] is the index: label first, then the
    remaining column [QID].  Labels may repeat. *)
Definition IndexedFrame : Type := list (string * Z).

(** What [frame.loc[label].QID] gives: the number itself when one row
    carries the label, the column of numbers when several do. *)
Inductive cell : Type :=
| Scalar (q : Z)
| Series (qs : list Z).

Module pd.

(** One row of [json_normalize(...).rename(...)[["QID", "titleSlug"]]]:
    the nested dict [stat] is flattened to dotted column names, of which
    [stat.frontend_question_id] and [stat.question__title_slug] are kept.
    The frame is typed, an integer and a string per row: a record
    without the two fields, or with other kinds of values in them, is
    refused here, where pandas would leave a gap in the frame or keep the
    value. *)
Definition row_of (record : json) : res (Z * string) :=
  rbind (Py.getitem record "stat") (fun stat =>
  rbind (Py.getitem stat "frontend_question_id") (fun qid =>
  rbind (Py.getitem stat "question__title_slug") (fun slug =>
  match qid, slug with
  | JNum q, JStr s => Ret (q, s)
  | _, _ => Raise TypeError
  end))).

(** [json_normalize(data).rename(...)[["QID", "titleSlug"]]].
    [json_normalize] takes a list of records, or one record alone; a
    number, a string, a boolean or [None] it refuses.  Of an empty list
    it makes a frame without columns, in which the selection of the two
    columns finds neither and raises. *)
Definition json_normalize (data : json) : res DataFrame :=
  match data with
  | JArr [] => Raise (KeyError (JArr [JStr "QID"; JStr "titleSlug"]))
  | JArr records => rmap row_of records
  | JObj _ => rbind (row_of data) (fun r => Ret [r])
  | _ => Raise NotImplementedError
  end.

Fixpoint insert (r : Z * string) (rows : DataFrame) : DataFrame :=
  match rows with
  | [] => [r]
  | r' :: rows' =>
      if fst r <=? fst r' then r :: rows else r' :: insert r rows'
  end.

(** [frame.sort_values("QID")]: ascending by number.  pandas leaves the
    order of rows with equal numbers to its sorting routine: the
    statements below say of the sorted frame that it is ordered and has
    the rows of the frame it was made from, and nothing about the place
    of rows with equal numbers. *)
Fixpoint sort_values (rows : DataFrame) : DataFrame :=
  match rows with
  | [] => []
  | r :: rows' => insert r (sort_values rows')
  end.

(** [frame.set_index("titleSlug")]; repeated labels are accepted. *)
Definition set_index (rows : DataFrame) : IndexedFrame :=
  map (fun r => (snd r, fst r)) rows.

Definition rows_at (frame : IndexedFrame) (s : string) : list Z :=
  map snd (filter (fun r => String.eqb (fst r) s) frame).

(** [frame.loc[label].QID] for a label that is one string, which is
    what the index holds.  Any other label is answered here like a
    string that is not there; pandas takes a list for a selection of
    several labels and refuses a dict, which no statement below reaches:
    their labels are slugs. *)
Definition loc_QID (frame : IndexedFrame) (label : json) : res cell :=
  match label with
  | JStr s =>
      match rows_at frame s with
      | [] => Raise (KeyError label)
      | [q] => Ret (Scalar q)
      | qs => Ret (Series qs)
      end
  | _ => Raise (KeyError label)
  end.

End pd.

(** ** The fetcher object and the record it returns *)

(** The attributes of a [GetQuestion] instance. *)
Record GetQuestion : Type := mkGetQuestion {
  titleSlug : string;
  questions_info : IndexedFrame }.

Module Question.

(** Modelled from the spec: the record type [Question] of [.models],
    which is not part of this source file.  It has the eleven fields
    [scrape] passes, under the keyword names used there.  A record holds
    under each name the value that [scrape] passes for it.  What the
    class makes of these values (the spec has a number for the
    identifier and a boolean for the paid flag, and leaves the shape and
    the validation of the record to that component) is not modelled:
    what is said below of a field of a record is said of the value
    passed for it. *)
Record t : Type := mk {
  QID : json;
  title : json;
  titleSlug : string;
  difficulty : json;
  Hints : json;
  Companies : json;
  topics : list json;
  isPaidOnly : json;
  Body : json;
  Code : json;
  SimilarQuestions : list cell }.

End Question.

(** The state a call runs in: the instance [self], how many requests
    each endpoint has answered so far, and what has happened. *)
Record state : Type := mkState {
  self : GetQuestion;
  gets : nat;
  posts : nat;
  trace : list event }.

(** ** Stateful computations that may raise *)

Definition M (A : Type) : Type := state -> res A * state.

Definition ret {A : Type} (a : A) : M A := fun st => (Ret a, st).

Definition raise {A : Type} (e : exn) : M A := fun st => (Raise e, st).

Definition lift {A : Type} (r : res A) : M A := fun st => (r, st).

Definition bind {A B : Type} (m : M A) (f : A -> M B) : M B :=
  fun st =>
    match m st with
    | (Ret a, st') => f a st'
    | (Raise e, st') => (Raise e, st')
    | (OutOfFuel, st') => (OutOfFuel, st')
    end.

Declare Scope monad_scope.
Delimit Scope monad_scope with monad.
Notation "x <- m ;; k" := (bind m (fun x => k))
  (at level 61, m at next level, right associativity) : monad_scope.
Notation "m ;; k" := (bind m (fun _ => k))
  (at level 61, right associativity) : monad_scope.
Local Open Scope monad_scope.

(** [try: m / except JSONDecodeError: handler]. *)
Definition try_except_JSONDecodeError {A : Type} (m handler : M A) : M A :=
  fun st =>
    match m st with
    | (Raise JSONDecodeError, st') => handler st'
    | other => other
    end.

Definition emit (e : event) : M unit :=
  fun st =>
    (Ret tt, mkState (self st) (gets st) (posts st) (trace st ++ [e])).

Definition get_self : M GetQuestion := fun st => (Ret (self st), st).

Definition set_self (o : GetQuestion) : M unit :=
  fun st => (Ret tt, mkState o (gets st) (posts st) (trace st)).

Definition time_sleep (seconds : Z) : M unit := emit (Sleep seconds).

Definition warnings_warn (msg : string) : M unit := emit (Warn msg).

(** [.status_code in (429, 400, 500, 502, 503, 504)]. *)
Definition in_retry_statuses (status : Z) : bool :=
  existsb (Z.eqb status) [429; 400; 500; 502; 503; 504].

Definition BASE_URL : string := "https://leetcode.com/graphql".

Definition ALL_URL : string := "https://leetcode.com/api/problems/all/".

Definition not_found_msg : string := "Leetcode's graphql API can't be found.".

Definition paid_only_msg : string :=
  "This questions is only for paid Leetcode subscribers.".

Definition error_status_msg (r : Response) : string :=
  "LeetCode API returned error status " ++ Py.str (status_code r) ++ ". "
  ++ "Response: " ++ Py.take 200 (text r).

Definition parse_failure_msg (r : Response) : string :=
  "Failed to parse JSON response from LeetCode API. "
  ++ "Status code: " ++ Py.str (status_code r) ++ ". "
  ++ "Response: " ++ Py.take 200 (text r).

(** [response_data["data"]["question"][field]]. *)
Definition question_field (response_data : json) (field : string) : res json :=
  rbind (Py.getitem response_data "data") (fun data =>
  rbind (Py.getitem data "question") (fun question =>
  Py.getitem question field)).

(** ** Class [GetQuestion] *)

Section GetQuestion.

Variable C : Collaborators.
Variable U : Upstream.

(** [requests.get(url, headers=HEADERS)]: the listing endpoint answers. *)
Definition requests_get (url : string) : M Response :=
  fun st =>
    (Ret (listing U (gets st)),
     mkState (self st) (S (gets st)) (posts st) (trace st ++ [Get url])).

(** [requests.post(url, json=data, headers=HEADERS)], where [data] is the
    fixed query with [slug] as its variable: the detail endpoint answers. *)
Definition requests_post (url slug : string) : M Response :=
  fun st =>
    (Ret (detail U slug (posts st)),
     mkState (self st) (gets st) (S (posts st)) (trace st ++ [Post url slug])).

Definition raise_for_status (r : Response) : M unit :=
  if ok r then ret tt else raise (HTTPError (status_code r)).

(** [response.json()]. *)
Definition response_json (r : Response) : M json :=
  emit Json ;;
  match json_loads C (text r) with
  | Some v => ret v
  | None => raise JSONDecodeError
  end.

(** [json.loads(v)]; only a string can be decoded. *)
Definition loads (v : json) : res json :=
  match v with
  | JStr s =>
      match json_loads C s with
      | Some j => Ret j
      | None => Raise JSONDecodeError
      end
  | _ => Raise TypeError
  end.

Definition fetch_all_questions_id_and_stub : M IndexedFrame :=
  response <- requests_get ALL_URL ;;
  raise_for_status response ;;
  req <- try_except_JSONDecodeError (response_json response)
           (raise (ValueError (parse_failure_msg response))) ;;
  pairs <- lift (Py.getitem req "stat_status_pairs") ;;
  question_data <- lift (pd.json_normalize pairs) ;;
  ret (pd.set_index (pd.sort_values question_data)).

Definition __init__ (slug : string) : M unit :=
  o <- get_self ;;
  set_self (mkGetQuestion slug (questions_info o)) ;;
  info <- fetch_all_questions_id_and_stub ;;
  o <- get_self ;;
  set_self (mkGetQuestion (titleSlug o) info).

Definition _get_question_body (response_data : json) : M json :=
  paid <- lift (question_field response_data "isPaidOnly") ;;
  if negb (Py.truthy paid) then
    lift (question_field response_data "content")
  else
    warnings_warn paid_only_msg ;;
    ret (JStr paid_only_msg).

Definition _get_similar_questions (response_data : json) : M (list cell) :=
  payload <- lift (question_field response_data "similarQuestions") ;;
  parsed <- lift (loads payload) ;;
  entries <- lift (Py.iter parsed) ;;
  o <- get_self ;;
  lift (rmap (fun qs =>
                rbind (Py.getitem qs "titleSlug")
                      (pd.loc_QID (questions_info o)))
             entries).

Definition _get_code_snippet (response_data : json) : M json :=
  paid <- lift (question_field response_data "isPaidOnly") ;;
  o <- get_self ;;
  if negb (Py.truthy paid) then
    snippets <- lift (question_field response_data "codeSnippets") ;;
    entries <- lift (Py.iter snippets) ;;
    python_code_snippet <-
      lift (rfilter (fun code_snippet =>
                       rbind (Py.getitem code_snippet "langSlug") (fun v =>
                       Ret (Py.eq_str v "python3")))
                    entries) ;;
    match python_code_snippet with
    | first :: _ => lift (Py.getitem first "code")
    | [] => ret (JStr (format C (NO_PYTHON_STUB C) (camel_case C (titleSlug o))))
    end
  else
    warnings_warn paid_only_msg ;;
    ret (JStr (format C (PREMIUM_CUSTOMER_PYTHON_STUB C)
                      (camel_case C (titleSlug o)))).

(** The [while] loop of [scrape], entered with the last response; each
    turn uses one unit of fuel. *)
Fixpoint while_retry (fuel : nat) (slug : string) (response : Response)
  : M Response :=
  if in_retry_statuses (status_code response) then
    match fuel with
    | O => fun st => (OutOfFuel, st)
    | S fuel' =>
        time_sleep 10 ;;
        response <- requests_post BASE_URL slug ;;
        (if status_code response =? 404
         then raise (ValueError not_found_msg) else ret tt) ;;
        while_retry fuel' slug response
    end
  else ret response.

Definition scrape (fuel : nat) : M Question.t :=
  o <- get_self ;;
  let slug := titleSlug o in
  response <- requests_post BASE_URL slug ;;
  (if status_code response =? 404
   then raise (ValueError not_found_msg) else ret tt) ;;
  response <- while_retry fuel slug response ;;
  (if negb (ok response)
   then raise (ValueError (error_status_msg response)) else ret tt) ;;
  response_data <- try_except_JSONDecodeError (response_json response)
                     (raise (ValueError (parse_failure_msg response))) ;;
  qid <- lift (question_field response_data "questionFrontendId") ;;
  title <- lift (question_field response_data "title") ;;
  o <- get_self ;;
  difficulty <- lift (question_field response_data "difficulty") ;;
  hints <- lift (question_field response_data "hints") ;;
  companies <- lift (question_field response_data "companyTags") ;;
  tags <- lift (question_field response_data "topicTags") ;;
  tags <- lift (Py.iter tags) ;;
  topics <- lift (rmap (fun topic => Py.getitem topic "name") tags) ;;
  paid <- lift (question_field response_data "isPaidOnly") ;;
  body <- _get_question_body response_data ;;
  code <- _get_code_snippet response_data ;;
  similar <- _get_similar_questions response_data ;;
  ret (Question.mk qid title (titleSlug o) difficulty hints companies topics
                   paid body code similar).

(** [GetQuestion(slug).scrape()]. *)
Definition fetch (fuel : nat) (slug : string) : M Question.t :=
  __init__ slug ;;
  scrape fuel.

End GetQuestion.

(** ** A small upstream to run the code on *)

Module Demo.

Definition catalog_record (q : Z) (slug : string) : json :=
  JObj [("stat", JObj [("question_id", JNum q);
                       ("question__title_slug", JStr slug);
                       ("frontend_question_id", JNum q)]);
        ("paid_only", JBool false)].

Definition catalog : json :=
  JObj [("user_name", JStr "");
        ("stat_status_pairs",
         JArr [catalog_record 15 "3sum"; catalog_record 1 "two-sum";
               catalog_record 4 "median-of-two-sorted-arrays"])].

(** A listing in which the slug [two-sum] comes twice. *)
Definition catalog_twice : json :=
  JObj [("stat_status_pairs",
         JArr [catalog_record 1 "two-sum"; catalog_record 2 "two-sum"])].

Definition snippet (lang code : string) : json :=
  JObj [("lang", JStr lang); ("langSlug", JStr lang); ("code", JStr code)].

Definition question (paid : bool) (similar : string) (snippets : list json)
  : json :=
  JObj [("data", JObj [("question", JObj [
    ("questionFrontendId", JStr "1");
    ("title", JStr "Two Sum");
    ("hints", JArr [JStr "Use a hash map."; JStr "One pass is enough."]);
    ("difficulty", JStr "Easy");
    ("companyTags", JNull);
    ("topicTags", JArr [JObj [("name", JStr "Array")];
                        JObj [("name", JStr "Hash Table")]]);
    ("similarQuestions", JStr similar);
    ("codeSnippets", JArr snippets);
    ("content", JStr "<p>Given an array of integers ...</p>");
    ("isPaidOnly", JBool paid)])])].

Definition snippets : list json :=
  [snippet "cpp" "class Solution {};";
   snippet "python3" "class Solution: pass";
   snippet "python3" "class Other: pass"].

(** The decoder, as a table from the texts used below to their values. *)
Definition json_loads (s : string) : option json :=
  if String.eqb s "LISTING" then Some catalog
  else if String.eqb s "LISTING-TWICE" then Some catalog_twice
  else if String.eqb s "FREE" then Some (question false "[3sum]" snippets)
  else if String.eqb s "FREE-NO-STUB" then
    Some (question false "[3sum]" [snippet "cpp" "class Solution {};"])
  else if String.eqb s "PAID" then Some (question true "[3sum]" snippets)
  else if String.eqb s "FREE-UNKNOWN" then
    Some (question false "[3sum, 4sum]" snippets)
  else if String.eqb s "[3sum]" then
    Some (JArr [JObj [("title", JStr "3Sum"); ("titleSlug", JStr "3sum")]])
  else if String.eqb s "[3sum, 4sum]" then
    Some (JArr [JObj [("title", JStr "3Sum"); ("titleSlug", JStr "3sum")];
                JObj [("title", JStr "4Sum"); ("titleSlug", JStr "4sum")]])
  else None.

Definition collaborators : Collaborators :=
  mkCollaborators json_loads
    (fun slug => "Solution_" ++ slug)
    (fun template arg => template ++ arg)
    "# no python stub: "
    "# premium only: ".

(** Both endpoints answer 200 with the given bodies, every time. *)
Definition steady (listing_body detail_body : string) : Upstream :=
  mkUpstream (fun _ => mkResponse 200 listing_body)
             (fun _ _ => mkResponse 200 detail_body).

(** The detail endpoint answers 503 to the first [k] requests and then
    [last] with the body [FREE]. *)
Definition busy (k : nat) (last : Z) : Upstream :=
  mkUpstream (fun _ => mkResponse 200 "LISTING")
             (fun _ n => if Nat.ltb n k then mkResponse 503 "busy"
                         else mkResponse last "FREE").

(** The listing endpoint answers [status] with [body]. *)
Definition listing_only (status : Z) (body : string) : Upstream :=
  mkUpstream (fun _ => mkResponse status body)
             (fun _ _ => mkResponse 200 "FREE").

Definition fresh : state := mkState (mkGetQuestion "" []) 0 0 [].

Definition ready : state :=
  mkState (mkGetQuestion "two-sum"
             [("two-sum", 1); ("median-of-two-sorted-arrays", 4); ("3sum", 15)])
          1 0 [Get ALL_URL; Json].

End Demo.

(** ** Vocabulary of the statements *)

(** The events of [k] turns of the retry loop. *)
Fixpoint retries (slug : string) (k : nat) : list event :=
  match k with
  | O => []
  | S k' => Sleep 10 :: Post BASE_URL slug :: retries slug k'
  end.

(** The state [st] after [k] turns of the retry loop. *)
Definition turned (st : state) (slug : string) (k : nat) : state :=
  mkState (self st) (gets st) (posts st + k)%nat (trace st ++ retries slug k).

(** The state [st] once the detail request has gone out, then [k] times
    again after a sleep, and nothing else has happened. *)
Definition sent (st : state) (slug : string) (k : nat) : state :=
  mkState (self st) (gets st) (posts st + S k)%nat
          (trace st ++ Post BASE_URL slug :: retries slug k).

(** The events of [k] requests that were each followed by a sleep. *)
Fixpoint attempts (slug : string) (k : nat) : list event :=
  match k with
  | O => []
  | S k' => Post BASE_URL slug :: Sleep 10 :: attempts slug k'
  end.

(** The state [st] after [k] such requests. *)
Definition skipped (st : state) (slug : string) (k : nat) : state :=
  mkState (self st) (gets st) (posts st + k)%nat (trace st ++ attempts slug k).

(** The state [st] once the listing has been asked for. *)
Definition listed (st : state) (more : list event) : state :=
  mkState (self st) (S (gets st)) (posts st) (trace st ++ Get ALL_URL :: more).

(** [st] with one more warning about paid content. *)
Definition warned (st : state) : state :=
  mkState (self st) (gets st) (posts st) (trace st ++ [Warn paid_only_msg]).



(** A frame holds at most one row per slug. *)
Definition deduplicated (frame : IndexedFrame) : Prop :=
  NoDup (map fst frame).

(** The slug [s] labels a row of the frame. *)
Definition in_index (frame : IndexedFrame) (s : string) : Prop :=
  In s (map fst frame).

(** The entry [qs] of a similar-questions payload refers to slug [s]. *)
Definition refers_to (qs : json) (s : string) : Prop :=
  Py.getitem qs "titleSlug" = Ret (JStr s).

(** The snippet [cs] has a language slug, and [b] tells whether it is
    the one of Python 3. *)
Definition lang_is_python3 (cs : json) (b : bool) : Prop :=
  exists v, Py.getitem cs "langSlug" = Ret v /\ Py.eq_str v "python3" = b.

(** The test of the comprehension in [_get_code_snippet]. *)
Definition is_python3 (code_snippet : json) : res bool :=
  rbind (Py.getitem code_snippet "langSlug") (fun v =>
  Ret (Py.eq_str v "python3")).

(** No snippet of the list is in Python 3. *)
Definition no_python3 (snippets : list json) : Prop :=
  Forall (fun c => lang_is_python3 c false) snippets.

(** [cs] is the first snippet of the list in Python 3, and every snippet
    of the list has a language slug. *)
Definition first_python3 (snippets : list json) (cs : json) : Prop :=
  exists before after,
    snippets = (before ++ cs :: after)%list /\
    no_python3 before /\
    lang_is_python3 cs true /\
    Forall (fun c => exists b, lang_is_python3 c b) after.

(** The two placeholders for the code, made from the slug. *)
Definition premium_stub (C : Collaborators) (slug : string) : json :=
  JStr (format C (PREMIUM_CUSTOMER_PYTHON_STUB C) (camel_case C slug)).

Definition no_stub (C : Collaborators) (slug : string) : json :=
  JStr (format C (NO_PYTHON_STUB C) (camel_case C slug)).

(** The record a call hands to its caller, if any. *)
Definition returned {A : Type} (r : res A) : option A :=
  match r with
  | Ret a => Some a
  | _ => None
  end.

(** A computation that leaves the instance as it found it. *)
Definition keeps_self {A : Type} (m : M A) : Prop :=
  forall st, self (snd (m st)) = self st.

(** A computation whose outcome and whose effect on the instance depend
    on the state through the instance only. *)
Definition reads_self_only {A : Type} (m : M A) : Prop :=
  forall st st',
    self st = self st' ->
    fst (m st) = fst (m st') /\ self (snd (m st)) = self (snd (m st')).

(** ** Vocabulary of the further properties *)

(** The expression [Question(...)] that [scrape] returns, evaluated on
    the decoded body [response_data]: the last steps of [scrape], from
    the first field it reads to the record, under a name. *)
Definition assemble (C : Collaborators) (response_data : json)
  : M Question.t :=
  qid <- lift (question_field response_data "questionFrontendId") ;;
  title <- lift (question_field response_data "title") ;;
  o <- get_self ;;
  difficulty <- lift (question_field response_data "difficulty") ;;
  hints <- lift (question_field response_data "hints") ;;
  companies <- lift (question_field response_data "companyTags") ;;
  tags <- lift (question_field response_data "topicTags") ;;
  tags <- lift (Py.iter tags) ;;
  topics <- lift (rmap (fun topic => Py.getitem topic "name") tags) ;;
  paid <- lift (question_field response_data "isPaidOnly") ;;
  body <- _get_question_body response_data ;;
  code <- _get_code_snippet C response_data ;;
  similar <- _get_similar_questions C response_data ;;
  ret (Question.mk qid title (titleSlug o) difficulty hints companies topics
                   paid body code similar).

(** The state [st] once the detail request has gone out, [k] times again
    after a sleep, and the body of the last answer has been handed to
    the decoder. *)
Definition decoded (st : state) (slug : string) (k : nat) : state :=
  mkState (self st) (gets st) (posts st + S k)%nat
          (trace st ++ Post BASE_URL slug :: retries slug k ++ [Json]).

(** The warnings of one call for a question that is paid or not: one
    from the body, one from the code. *)
Definition warnings (paid : bool) : list event :=
  if paid then [Warn paid_only_msg; Warn paid_only_msg] else [].

(** A computation that answers whatever fuel its caller has. *)
Definition never_runs_out {A : Type} (m : M A) : Prop :=
  forall st, fst (m st) <> OutOfFuel.

(** Requests to the listing endpoint, and what goes to the detail
    endpoint: requests and the sleeps between them. *)
Definition is_listing_traffic (e : event) : bool :=
  match e with
  | Get _ => true
  | _ => false
  end.

Definition is_detail_traffic (e : event) : bool :=
  match e with
  | Post _ _ | Sleep _ => true
  | _ => false
  end.

(** A computation that only adds to the trace, adds no event of the
    kind [bad], and leaves the counter [count] as it is. *)
Definition quiet (count : state -> nat) (bad : event -> bool)
                 {A : Type} (m : M A) : Prop :=
  forall st,
    count (snd (m st)) = count st /\
    exists more,
      trace (snd (m st)) = (trace st ++ more)%list /\
      forallb (fun e => negb (bad e)) more = true.

(** A computation that raises only exceptions with the property [P]. *)
Definition raises_only {A : Type} (P : exn -> Prop) (m : M A) : Prop :=
  forall st e st', m st = (Raise e, st') -> P e.

(** What a look-up in a decoded value or in the index raises. *)
Definition key_or_type (e : exn) : Prop :=
  match e with
  | KeyError _ | TypeError => True
  | _ => False
  end.

(** What the assembling of a record from the body [rd] raises: the
    exceptions of look-ups, and the decode error of a similar-questions
    payload that does not decode. *)
Definition assemble_exn (C : Collaborators) (rd : json) (e : exn) : Prop :=
  key_or_type e \/
  (e = JSONDecodeError /\
   exists payload,
     question_field rd "similarQuestions" = Ret (JStr payload) /\
     json_loads C payload = None).

(** * Properties *)

(** ** The monad *)

Lemma bind_Ret_inv {A B : Type} (m : M A) (f : A -> M B) st b st' :
  bind m f st = (Ret b, st') ->
  exists a st1, m st = (Ret a, st1) /\ f a st1 = (Ret b, st').
Proof.
  unfold bind. destruct (m st) as [[a | e |] st1]; intro H; try discriminate.
  exists a, st1. split; [reflexivity | exact H].
Qed.

Lemma bind_Ret {A B : Type} (m : M A) (f : A -> M B) st a st1 :
  m st = (Ret a, st1) -> bind m f st = f a st1.
Proof. intro H. unfold bind. rewrite H. reflexivity. Qed.

Lemma bind_Raise {A B : Type} (m : M A) (f : A -> M B) st e st1 :
  m st = (Raise e, st1) -> bind m f st = (Raise e, st1).
Proof. intro H. unfold bind. rewrite H. reflexivity. Qed.

Lemma lift_Ret_inv {A : Type} (r : res A) st a st' :
  lift r st = (Ret a, st') -> r = Ret a /\ st' = st.
Proof. unfold lift. intro H. inversion H. split; reflexivity. Qed.

Lemma keeps_self_ret {A : Type} (a : A) : keeps_self (ret a).
Proof. intro st. reflexivity. Qed.

Lemma keeps_self_raise {A : Type} (e : exn) : keeps_self (@raise A e).
Proof. intro st. reflexivity. Qed.

Lemma keeps_self_lift {A : Type} (r : res A) : keeps_self (lift r).
Proof. intro st. reflexivity. Qed.

Lemma keeps_self_emit (e : event) : keeps_self (emit e).
Proof. intro st. reflexivity. Qed.

Lemma keeps_self_get_self : keeps_self get_self.
Proof. intro st. reflexivity. Qed.

Lemma keeps_self_bind {A B : Type} (m : M A) (f : A -> M B) :
  keeps_self m -> (forall a, keeps_self (f a)) -> keeps_self (bind m f).
Proof.
  intros Hm Hf st. unfold bind. specialize (Hm st).
  destruct (m st) as [[a | e |] st1]; simpl in *; try exact Hm.
  rewrite Hf. exact Hm.
Qed.

Lemma keeps_self_try {A : Type} (m h : M A) :
  keeps_self m -> keeps_self h -> keeps_self (try_except_JSONDecodeError m h).
Proof.
  intros Hm Hh st. unfold try_except_JSONDecodeError. specialize (Hm st).
  destruct (m st) as [[a | e |] st1]; simpl in *; try exact Hm.
  destruct e; simpl; try exact Hm. rewrite Hh. exact Hm.
Qed.

Lemma keeps_self_if {A : Type} (b : bool) (m1 m2 : M A) :
  keeps_self m1 -> keeps_self m2 -> keeps_self (if b then m1 else m2).
Proof. destruct b; intros; assumption. Qed.

Create HintDb keeps.

#[local] Hint Resolve keeps_self_ret keeps_self_raise keeps_self_lift
  keeps_self_emit keeps_self_get_self keeps_self_try keeps_self_if : keeps.

Ltac keeps :=
  repeat first
    [ apply keeps_self_bind; [ | intro ]
    | solve [ auto with keeps ]
    | match goal with
      | |- keeps_self (match ?x with _ => _ end) => destruct x
      | |- keeps_self (let _ := _ in _) => cbv zeta
      end ].

(** ** The instance is only read *)

Section Frame.

Variable C : Collaborators.
Variable U : Upstream.

Lemma keeps_self_requests_post url slug : keeps_self (requests_post U url slug).
Proof. intro st. reflexivity. Qed.

Lemma keeps_self_requests_get url : keeps_self (requests_get U url).
Proof. intro st. reflexivity. Qed.

Lemma keeps_self_response_json r : keeps_self (response_json C r).
Proof. unfold response_json. keeps. Qed.

Lemma keeps_self_fetch_all : keeps_self (fetch_all_questions_id_and_stub C U).
Proof.
  unfold fetch_all_questions_id_and_stub, raise_for_status.
  pose proof keeps_self_requests_get. pose proof keeps_self_response_json.
  keeps.
Qed.

Lemma keeps_self_body rd : keeps_self (_get_question_body rd).
Proof. unfold _get_question_body, warnings_warn. keeps. Qed.

Lemma keeps_self_code rd : keeps_self (_get_code_snippet C rd).
Proof. unfold _get_code_snippet, warnings_warn. keeps. Qed.

Lemma keeps_self_similar rd : keeps_self (_get_similar_questions C rd).
Proof. unfold _get_similar_questions. keeps. Qed.

Lemma keeps_self_while_retry fuel slug r :
  keeps_self (while_retry U fuel slug r).
Proof.
  revert r. induction fuel as [| fuel IH]; intro r; simpl.
  - destruct (in_retry_statuses (status_code r)); [intro st | ]; auto with keeps.
  - destruct (in_retry_statuses (status_code r)); [ | auto with keeps ].
    unfold time_sleep. pose proof keeps_self_requests_post. keeps.
Qed.

Lemma keeps_self_scrape fuel : keeps_self (scrape C U fuel).
Proof.
  unfold scrape.
  pose proof keeps_self_requests_post. pose proof keeps_self_response_json.
  pose proof keeps_self_while_retry. pose proof keeps_self_body.
  pose proof keeps_self_code. pose proof keeps_self_similar.
  keeps.
Qed.

End Frame.

(** ** The retry loop *)

Lemma in_retry_statuses_not_404 status :
  in_retry_statuses status = true -> (status =? 404) = false.
Proof.
  unfold in_retry_statuses. simpl. intro H.
  destruct (Z.eqb_spec status 404) as [-> | ]; [discriminate H | reflexivity].
Qed.

Lemma in_retry_statuses_not_ok r :
  in_retry_statuses (status_code r) = true -> ok r = false.
Proof.
  unfold in_retry_statuses, ok. simpl. intro H.
  repeat (apply orb_prop in H; destruct H as [H | H]);
    try discriminate H; apply Z.eqb_eq in H; rewrite H; reflexivity.
Qed.

Lemma state_eq o g p t p' t' :
  p = p' -> t = t' -> mkState o g p t = mkState o g p' t'.
Proof. intros -> ->. reflexivity. Qed.

Section Retry.

Variable U : Upstream.
Variable slug : string.

Lemma while_retry_exit fuel r st :
  in_retry_statuses (status_code r) = false ->
  while_retry U fuel slug r st = (Ret r, st).
Proof. intro H. destruct fuel; simpl; rewrite H; reflexivity. Qed.

Lemma while_retry_step fuel r st :
  in_retry_statuses (status_code r) = true ->
  while_retry U (S fuel) slug r st =
  if status_code (detail U slug (posts st)) =? 404
  then (Raise (ValueError not_found_msg), turned st slug 1)
  else while_retry U fuel slug (detail U slug (posts st)) (turned st slug 1).
Proof.
  intro H. simpl. rewrite H.
  unfold bind, time_sleep, emit, requests_post, turned. simpl.
  assert (E : forall t : list event,
             ((t ++ [Sleep 10]) ++ [Post BASE_URL slug]
              = t ++ [Sleep 10; Post BASE_URL slug])%list)
    by (intro t; rewrite <- app_assoc; reflexivity).
  rewrite E, Nat.add_1_r.
  destruct (status_code (detail U slug (posts st)) =? 404); reflexivity.
Qed.

Lemma turned_turned st k :
  turned (turned st slug 1) slug k = turned st slug (S k).
Proof.
  unfold turned. simpl. apply state_eq; [lia | ].
  rewrite <- app_assoc. reflexivity.
Qed.

(** While the answers stay in the retry statuses the loop goes on: it
    uses up any fuel, one sleep and one request per unit. *)
Lemma while_retry_busy n : forall r st,
  in_retry_statuses (status_code r) = true ->
  (forall i, (i < n)%nat ->
     in_retry_statuses (status_code (detail U slug (posts st + i))) = true) ->
  while_retry U n slug r st = (OutOfFuel, turned st slug n).
Proof.
  induction n as [| n IH]; intros r st Hr Hall.
  - simpl. rewrite Hr. unfold turned. simpl.
    rewrite Nat.add_0_r, app_nil_r. destruct st; reflexivity.
  - rewrite while_retry_step by exact Hr.
    assert (H0 := Hall 0%nat ltac:(lia)). rewrite Nat.add_0_r in H0.
    rewrite (in_retry_statuses_not_404 _ H0).
    rewrite IH; [ rewrite turned_turned; reflexivity | exact H0 | ].
    intros i Hi.
    replace (posts (turned st slug 1) + i)%nat with (posts st + S i)%nat
      by (simpl; lia).
    apply Hall. lia.
Qed.

(** After [j] answers in the retry statuses and one that is not, the
    loop is left: with the exception of [scrape] for a 404, with the
    answer otherwise. *)
Lemma while_retry_settles j : forall fuel r st,
  in_retry_statuses (status_code r) = true ->
  (forall i, (i < j)%nat ->
     in_retry_statuses (status_code (detail U slug (posts st + i))) = true) ->
  in_retry_statuses (status_code (detail U slug (posts st + j))) = false ->
  (j < fuel)%nat ->
  while_retry U fuel slug r st =
  (if status_code (detail U slug (posts st + j)) =? 404
   then Raise (ValueError not_found_msg)
   else Ret (detail U slug (posts st + j)),
   turned st slug (S j)).
Proof.
  induction j as [| j IH]; intros fuel r st Hr Hall Hlast Hfuel;
    (destruct fuel as [| fuel]; [lia | ]);
    rewrite while_retry_step by exact Hr.
  - rewrite Nat.add_0_r in *.
    destruct (status_code (detail U slug (posts st)) =? 404); [reflexivity | ].
    apply while_retry_exit. exact Hlast.
  - assert (H0 := Hall 0%nat ltac:(lia)). rewrite Nat.add_0_r in H0.
    rewrite (in_retry_statuses_not_404 _ H0).
    assert (E : (posts (turned st slug 1) + j = posts st + S j)%nat)
      by (simpl; lia).
    rewrite (IH fuel _ (turned st slug 1)); rewrite ?E, ?turned_turned;
      [ reflexivity | exact H0 | | exact Hlast | lia ].
    intros i Hi.
    replace (posts (turned st slug 1) + i)%nat with (posts st + S i)%nat
      by (simpl; lia).
    apply Hall. lia.
Qed.

End Retry.

(** ** Sending the detail request *)

Lemma attempts_retries slug k :
  (attempts slug k ++ [Post BASE_URL slug] = Post BASE_URL slug :: retries slug k)%list.
Proof.
  induction k as [| k IH]; [reflexivity | ].
  simpl. rewrite IH. reflexivity.
Qed.

Lemma sent_skipped st slug k :
  sent (skipped st slug k) slug 0 = sent st slug k.
Proof.
  unfold sent, skipped. simpl. apply state_eq; [lia | ].
  rewrite <- app_assoc, attempts_retries. reflexivity.
Qed.

Lemma skipped_0 st slug : skipped st slug 0 = st.
Proof.
  unfold skipped. simpl. rewrite Nat.add_0_r, app_nil_r.
  destruct st; reflexivity.
Qed.

Lemma sent_0 st slug :
  sent st slug 0 =
  mkState (self st) (gets st) (S (posts st)) (trace st ++ [Post BASE_URL slug]).
Proof. unfold sent. simpl. apply state_eq; [lia | reflexivity]. Qed.

Lemma take_length n s : (String.length (Py.take n s) <= n)%nat.
Proof.
  unfold Py.take. revert s.
  induction n as [| n IH]; intros [| c s]; simpl; try lia.
  specialize (IH s). lia.
Qed.

Lemma take_prefix n s : prefix (Py.take n s) s = true.
Proof.
  unfold Py.take. revert s.
  induction n as [| n IH]; intros [| c s]; simpl; try reflexivity.
  destruct (ascii_dec c c) as [_ | Hc]; [apply IH | contradiction].
Qed.

#[local] Arguments while_retry : simpl never.

Ltac start_scrape st :=
  unfold scrape;
  rewrite (bind_Ret get_self _ st (self st) st eq_refl);
  cbv zeta;
  rewrite (bind_Ret (requests_post _ _ _) _ st _ _ eq_refl);
  rewrite <- sent_0.

Section Sending.

Variable C : Collaborators.
Variable U : Upstream.

(** A run that meets [k] answers in the retry statuses and then one that
    is not goes on like a run that starts at that answer. *)
Lemma scrape_skip k fuel st :
  (forall i, (i < k)%nat ->
     in_retry_statuses
       (status_code (detail U (titleSlug (self st)) (posts st + i))) = true) ->
  in_retry_statuses
    (status_code (detail U (titleSlug (self st)) (posts st + k))) = false ->
  (k <= fuel)%nat ->
  scrape C U fuel st = scrape C U 0 (skipped st (titleSlug (self st)) k).
Proof.
  intros Hall Hlast Hfuel.
  set (slug := titleSlug (self st)) in *.
  unfold scrape.
  rewrite (bind_Ret get_self _ st (self st) st eq_refl).
  rewrite (bind_Ret get_self _ (skipped st slug k) (self st) _ eq_refl).
  cbv zeta. fold slug.
  rewrite (bind_Ret (requests_post U BASE_URL slug) _ st _ _ eq_refl).
  rewrite (bind_Ret (requests_post U BASE_URL slug) _ (skipped st slug k) _ _ eq_refl).
  match goal with
  | |- bind _ (fun _ => bind _ ?K) _ = _ => set (rest := K)
  end.
  destruct k as [| j].
  - rewrite skipped_0. rewrite Nat.add_0_r in Hlast.
    unfold bind at 1 3.
    destruct (status_code (detail U slug (posts st)) =? 404); [reflexivity | ].
    unfold bind, ret.
    rewrite !while_retry_exit by exact Hlast. reflexivity.
  - assert (H0 := Hall 0%nat ltac:(lia)). rewrite Nat.add_0_r in H0.
    set (st1 := mkState (self st) (gets st) (S (posts st))
                        (trace st ++ [Post BASE_URL slug])).
    assert (E : (posts st1 + j = posts st + S j)%nat) by (simpl; lia).
    assert (Est : turned st1 slug (S j) = sent st slug (S j)).
    { unfold turned, sent, st1. simpl. apply state_eq; [lia | ].
      rewrite <- app_assoc. reflexivity. }
    assert (Esk : mkState (self (skipped st slug (S j)))
                    (gets (skipped st slug (S j)))
                    (S (posts (skipped st slug (S j))))
                    (trace (skipped st slug (S j)) ++ [Post BASE_URL slug])
                  = sent st slug (S j)).
    { rewrite <- sent_skipped. unfold sent. simpl.
      apply state_eq; [lia | reflexivity]. }
    rewrite Esk.
    replace (posts (skipped st slug (S j))) with (posts st + S j)%nat
      by reflexivity.
    unfold bind at 1 3.
    rewrite (in_retry_statuses_not_404 _ H0).
    unfold ret at 1. unfold bind at 1.
    rewrite (while_retry_settles U slug j fuel _ st1);
      rewrite ?E, ?Est; [ | exact H0 | | exact Hlast | lia ].
    + destruct (status_code (detail U slug (posts st + S j)) =? 404);
        [reflexivity | ].
      unfold ret at 1. unfold bind.
      rewrite while_retry_exit by exact Hlast. reflexivity.
    + intros i Hi.
      replace (posts st1 + i)%nat with (posts st + S i)%nat by (simpl; lia).
      apply Hall. lia.
Qed.

Lemma scrape_first_404 fuel st :
  status_code (detail U (titleSlug (self st)) (posts st)) = 404 ->
  scrape C U fuel st =
  (Raise (ValueError not_found_msg), sent st (titleSlug (self st)) 0).
Proof.
  intro H. start_scrape st. unfold bind at 1. rewrite H. reflexivity.
Qed.

Lemma scrape_first_error fuel st :
  status_code (detail U (titleSlug (self st)) (posts st)) <> 404 ->
  in_retry_statuses
    (status_code (detail U (titleSlug (self st)) (posts st))) = false ->
  ok (detail U (titleSlug (self st)) (posts st)) = false ->
  scrape C U fuel st =
  (Raise (ValueError
            (error_status_msg (detail U (titleSlug (self st)) (posts st)))),
   sent st (titleSlug (self st)) 0).
Proof.
  intros H404 Hbusy Hok. start_scrape st.
  apply Z.eqb_neq in H404.
  unfold bind at 1. rewrite H404. unfold ret at 1.
  unfold bind at 1. rewrite while_retry_exit by exact Hbusy.
  unfold bind at 1. rewrite Hok. reflexivity.
Qed.

End Sending.


(** ** Retry policy of [scrape] *)

Lemma no_Json_in_retries slug k :
  ~ In Json (Post BASE_URL slug :: retries slug k).
Proof.
  intros [H | H]; [discriminate H | ].
  induction k as [| j IH]; simpl in H; [exact H | ].
  destruct H as [H | [H | H]]; try discriminate H. exact (IH H).
Qed.

(** C4.  As long as the detail endpoint answers with a status among 429,
    400, 500, 502, 503 and 504, [scrape] sleeps 10 seconds and sends the
    request again, without any bound on the number of turns: if the
    first [n + 1] answers are of this kind, then after [n] turns of the
    loop the call has neither returned nor raised, and what it has done
    is the request followed by [n] times a sleep of 10 and the request
    again. *)
Theorem scrape_retries_while_transient C U n st :
  (forall i, (i <= n)%nat ->
     in_retry_statuses
       (status_code (detail U (titleSlug (self st)) (posts st + i))) = true) ->
  scrape C U n st = (OutOfFuel, sent st (titleSlug (self st)) n).
Proof.
  intro Hall.
  assert (H0 := Hall 0%nat ltac:(lia)). rewrite Nat.add_0_r in H0.
  start_scrape st.
  unfold bind at 1. rewrite (in_retry_statuses_not_404 _ H0). unfold ret at 1.
  unfold bind at 1. rewrite while_retry_busy.
  - f_equal. unfold turned, sent. simpl. apply state_eq; [lia | ].
    rewrite <- app_assoc. reflexivity.
  - exact H0.
  - intros i Hi.
    replace (posts (sent st (titleSlug (self st)) 0) + i)%nat
      with (posts st + S i)%nat by (simpl; lia).
    apply Hall. lia.
Qed.

Lemma scrape_retries_while_transient_witness :
  (forall i, (i <= 3)%nat ->
     in_retry_statuses
       (status_code (detail (Demo.busy 7 403) "two-sum" (0 + i))) = true) /\
  scrape Demo.collaborators (Demo.busy 7 403) 3 Demo.ready =
  (OutOfFuel, sent Demo.ready "two-sum" 3).
Proof.
  assert (H : forall i, (i <= 3)%nat ->
            in_retry_statuses
              (status_code (detail (Demo.busy 7 403) "two-sum" (0 + i))) = true).
  { intros i Hi. do 4 (destruct i as [| i]; [reflexivity | ]). lia. }
  split; [exact H | ].
  exact (scrape_retries_while_transient
           Demo.collaborators (Demo.busy 7 403) 3 Demo.ready H).
Defined.

(** C5.  A 404 from the detail endpoint, on the first request or after
    any number [k] of retried ones, makes [scrape] raise the error of an
    endpoint that cannot be found; the last thing the call did is the
    request that was answered 404: no sleep and no request follow. *)
Theorem scrape_not_found_raises_at_once C U k fuel st :
  (forall i, (i < k)%nat ->
     in_retry_statuses
       (status_code (detail U (titleSlug (self st)) (posts st + i))) = true) ->
  status_code (detail U (titleSlug (self st)) (posts st + k)) = 404 ->
  (k <= fuel)%nat ->
  scrape C U fuel st =
  (Raise (ValueError not_found_msg), sent st (titleSlug (self st)) k).
Proof.
  intros Hall H404 Hfuel.
  rewrite (scrape_skip C U k fuel st Hall); [ | rewrite H404; reflexivity | exact Hfuel ].
  rewrite scrape_first_404 by exact H404.
  simpl self. rewrite sent_skipped. reflexivity.
Qed.

Lemma scrape_not_found_raises_at_once_witness :
  (forall i, (i < 2)%nat ->
     in_retry_statuses
       (status_code (detail (Demo.busy 2 404) "two-sum" (0 + i))) = true) /\
  status_code (detail (Demo.busy 2 404) "two-sum" (0 + 2)) = 404 /\
  (2 <= 5)%nat /\
  scrape Demo.collaborators (Demo.busy 2 404) 5 Demo.ready =
  (Raise (ValueError not_found_msg), sent Demo.ready "two-sum" 2).
Proof.
  assert (H : forall i, (i < 2)%nat ->
            in_retry_statuses
              (status_code (detail (Demo.busy 2 404) "two-sum" (0 + i))) = true).
  { intros i Hi. do 2 (destruct i as [| i]; [reflexivity | ]). lia. }
  assert (L : (2 <= 5)%nat) by lia.
  split; [exact H | split; [reflexivity | split; [exact L | ]]].
  exact (scrape_not_found_raises_at_once
           Demo.collaborators (Demo.busy 2 404) 2 5 Demo.ready H eq_refl L).
Defined.

(** C10.  An answer of the detail endpoint whose status is not 404, not
    one of the retried statuses and not a good status below 400 (401 or
    403, say), on the first request or after [k] retried ones, makes
    [scrape] raise an error whose message holds the status and the first
    200 characters of the body; the call stops at that request, and the
    body is not decoded.  A status of HTTP is below 600. *)
Theorem scrape_error_status_raises C U k fuel st :
  let r := detail U (titleSlug (self st)) (posts st + k) in
  (forall i, (i < k)%nat ->
     in_retry_statuses
       (status_code (detail U (titleSlug (self st)) (posts st + i))) = true) ->
  status_code r <> 404 ->
  in_retry_statuses (status_code r) = false ->
  ~ (ok r = true /\ status_code r < 400) ->
  status_code r < 600 ->
  (k <= fuel)%nat ->
  scrape C U fuel st =
    (Raise (ValueError (error_status_msg r)), sent st (titleSlug (self st)) k) /\
  error_status_msg r =
    "LeetCode API returned error status " ++ Py.str (status_code r)
    ++ ". Response: " ++ Py.take 200 (text r) /\
  (String.length (Py.take 200 (text r)) <= 200)%nat /\
  prefix (Py.take 200 (text r)) (text r) = true /\
  ~ In Json (Post BASE_URL (titleSlug (self st)) :: retries (titleSlug (self st)) k).
Proof.
  intros r Hall H404 Hbusy Hgood Hhttp Hfuel.
  assert (Hok : ok r = false).
  { destruct (ok r) eqn:E; [ | reflexivity ]. exfalso. apply Hgood.
    split; [reflexivity | ]. unfold ok in E.
    apply negb_true_iff, andb_false_iff in E. destruct E as [E | E].
    - apply Z.leb_gt in E. exact E.
    - apply Z.ltb_ge in E. lia. }
  repeat split.
  - rewrite (scrape_skip C U k fuel st Hall Hbusy Hfuel).
    rewrite scrape_first_error;
      [ simpl self; rewrite sent_skipped; reflexivity
      | exact H404 | exact Hbusy | exact Hok ].
  - apply take_length.
  - apply take_prefix.
  - apply no_Json_in_retries.
Qed.

Lemma scrape_error_status_raises_witness :
  scrape Demo.collaborators (Demo.busy 2 403) 5 Demo.ready =
  (Raise (ValueError "LeetCode API returned error status 403. Response: FREE"),
   sent Demo.ready "two-sum" 2).
Proof.
  assert (H : forall i, (i < 2)%nat ->
            in_retry_statuses
              (status_code (detail (Demo.busy 2 403) "two-sum" (0 + i))) = true).
  { intros i Hi. do 2 (destruct i as [| i]; [reflexivity | ]). lia. }
  refine (proj1 (scrape_error_status_raises
                   Demo.collaborators (Demo.busy 2 403) 2 5 Demo.ready
                   H _ eq_refl _ eq_refl _)).
  - simpl. discriminate.
  - simpl. intros [_ Hlt]. discriminate Hlt.
  - lia.
Defined.

(** ** Loading the catalog index *)

Section Loading.

Variable C : Collaborators.
Variable U : Upstream.

Lemma fetch_all_http_error st :
  ok (listing U (gets st)) = false ->
  fetch_all_questions_id_and_stub C U st =
  (Raise (HTTPError (status_code (listing U (gets st)))), listed st []).
Proof.
  intro Hok.
  unfold fetch_all_questions_id_and_stub, raise_for_status.
  rewrite (bind_Ret (requests_get U ALL_URL) _ st _ _ eq_refl).
  unfold bind at 1. rewrite Hok. reflexivity.
Qed.

Lemma listed_Json st :
  mkState (self (listed st [])) (gets (listed st [])) (posts (listed st []))
          (trace (listed st []) ++ [Json]) = listed st [Json].
Proof.
  unfold listed. simpl. apply state_eq; [reflexivity | ].
  rewrite <- app_assoc. reflexivity.
Qed.

Lemma fetch_all_undecodable st :
  ok (listing U (gets st)) = true ->
  json_loads C (text (listing U (gets st))) = None ->
  fetch_all_questions_id_and_stub C U st =
  (Raise (ValueError (parse_failure_msg (listing U (gets st)))),
   listed st [Json]).
Proof.
  intros Hok Hnone.
  unfold fetch_all_questions_id_and_stub, raise_for_status.
  rewrite (bind_Ret (requests_get U ALL_URL) _ st _ _ eq_refl).
  unfold bind at 1. rewrite Hok. unfold ret at 1.
  unfold bind at 1, try_except_JSONDecodeError, response_json, bind, emit.
  rewrite Hnone. unfold raise. rewrite <- listed_Json. reflexivity.
Qed.

Lemma fetch_all_decoded st req :
  ok (listing U (gets st)) = true ->
  json_loads C (text (listing U (gets st))) = Some req ->
  fetch_all_questions_id_and_stub C U st =
  (rbind (Py.getitem req "stat_status_pairs") (fun pairs =>
   rbind (pd.json_normalize pairs) (fun question_data =>
   Ret (pd.set_index (pd.sort_values question_data)))),
   listed st [Json]).
Proof.
  intros Hok Hsome.
  unfold fetch_all_questions_id_and_stub, raise_for_status.
  rewrite (bind_Ret (requests_get U ALL_URL) _ st _ _ eq_refl).
  unfold bind at 1. rewrite Hok. unfold ret at 1.
  unfold bind at 1, try_except_JSONDecodeError, response_json, bind, emit.
  rewrite Hsome. unfold ret, lift. rewrite <- listed_Json.
  destruct (Py.getitem req "stat_status_pairs") as [pairs | e |];
    try reflexivity.
  simpl. destruct (pd.json_normalize pairs); reflexivity.
Qed.

End Loading.

(** C7.  The loader asks the listing endpoint once.  A status from 400
    to 599 makes it raise the HTTP error of [raise_for_status], and the
    request is not sent again; with another status, a body that cannot
    be decoded makes it raise a [ValueError] whose message holds the
    status and the first 200 characters of the body. *)
Theorem load_faults C U st :
  let r := listing U (gets st) in
  (400 <= status_code r < 600 ->
   fetch_all_questions_id_and_stub C U st =
   (Raise (HTTPError (status_code r)), listed st [])) /\
  (~ 400 <= status_code r < 600 ->
   json_loads C (text r) = None ->
   fetch_all_questions_id_and_stub C U st =
   (Raise (ValueError (parse_failure_msg r)), listed st [Json])) /\
  parse_failure_msg r =
    "Failed to parse JSON response from LeetCode API. Status code: "
    ++ Py.str (status_code r) ++ ". Response: " ++ Py.take 200 (text r) /\
  (String.length (Py.take 200 (text r)) <= 200)%nat /\
  prefix (Py.take 200 (text r)) (text r) = true.
Proof.
  intro r. repeat split.
  - intro H. apply fetch_all_http_error. fold r. unfold ok.
    apply negb_false_iff, andb_true_iff. split; [apply Z.leb_le | apply Z.ltb_lt]; lia.
  - intros H Hnone. apply fetch_all_undecodable; [ | exact Hnone ].
    fold r. unfold ok. apply negb_true_iff, andb_false_iff.
    destruct (Z.leb_spec 400 (status_code r)) as [Hle | Hlt];
      [right; apply Z.ltb_ge; lia | left; reflexivity].
  - apply take_length.
  - apply take_prefix.
Qed.

Lemma load_faults_witness :
  fetch_all_questions_id_and_stub
    Demo.collaborators (Demo.listing_only 503 "Service Unavailable") Demo.fresh
  = (Raise (HTTPError 503), listed Demo.fresh []) /\
  fetch_all_questions_id_and_stub
    Demo.collaborators (Demo.listing_only 200 "<html>") Demo.fresh
  = (Raise (ValueError
       "Failed to parse JSON response from LeetCode API. Status code: 200. Response: <html>"),
     listed Demo.fresh [Json]).
Proof.
  split.
  - apply (proj1 (load_faults Demo.collaborators
                    (Demo.listing_only 503 "Service Unavailable") Demo.fresh)).
    simpl. lia.
  - apply (proj1 (proj2 (load_faults Demo.collaborators
                           (Demo.listing_only 200 "<html>") Demo.fresh))).
    + simpl. lia.
    + reflexivity.
Defined.

(** *** Sorting keeps every row *)









(** A listing without any record: there is no column to select. *)
Lemma load_empty_listing C U st req :
  ok (listing U (gets st)) = true ->
  json_loads C (text (listing U (gets st))) = Some req ->
  Py.getitem req "stat_status_pairs" = Ret (JArr []) ->
  fetch_all_questions_id_and_stub C U st =
  (Raise (KeyError (JArr [JStr "QID"; JStr "titleSlug"])), listed st [Json]).
Proof.
  intros Hok Hreq Hpairs.
  rewrite (fetch_all_decoded C U st req Hok Hreq), Hpairs. reflexivity.
Qed.




(** ** Similar questions *)

Lemma rows_at_absent frame s :
  ~ in_index frame s -> pd.rows_at frame s = [].
Proof.
  unfold in_index, pd.rows_at.
  induction frame as [| [s' q'] frame IH]; simpl; intro H; [reflexivity | ].
  destruct (String.eqb_spec s' s) as [-> | Hne].
  - exfalso. apply H. left. reflexivity.
  - apply IH. intro Hin. apply H. right. exact Hin.
Qed.

Lemma rows_at_present frame s :
  in_index frame s -> pd.rows_at frame s <> [].
Proof.
  unfold in_index, pd.rows_at.
  induction frame as [| [s' q'] frame IH]; simpl; intro H; [contradiction | ].
  destruct (String.eqb_spec s' s) as [-> | Hne]; [discriminate | ].
  destruct H as [H | H]; [contradiction | exact (IH H)].
Qed.

Lemma rows_at_unique frame s :
  deduplicated frame -> in_index frame s ->
  exists q, pd.rows_at frame s = [q] /\ In (s, q) frame.
Proof.
  unfold deduplicated, in_index.
  induction frame as [| [s' q'] frame IH]; simpl; intros Hnd H;
    [contradiction | ].
  inversion Hnd as [| x l Hnotin Hnd']; subst.
  unfold pd.rows_at. simpl.
  destruct (String.eqb_spec s' s) as [-> | Hne].
  - exists q'. split; [ | left; reflexivity ].
    simpl. f_equal. apply (rows_at_absent frame s Hnotin).
  - destruct H as [H | H]; [contradiction | ].
    destruct (IH Hnd' H) as (q & Hq & Hin).
    exists q. split; [exact Hq | right; exact Hin].
Qed.

Lemma loc_QID_absent frame s :
  ~ in_index frame s -> pd.loc_QID frame (JStr s) = Raise (KeyError (JStr s)).
Proof.
  intro H. unfold pd.loc_QID. rewrite (rows_at_absent _ _ H). reflexivity.
Qed.

Lemma loc_QID_present frame s :
  in_index frame s -> exists c, pd.loc_QID frame (JStr s) = Ret c.
Proof.
  intro H. unfold pd.loc_QID. pose proof (rows_at_present _ _ H) as Hne.
  destruct (pd.rows_at frame s) as [| q [| q2 qs]]; [contradiction | | ];
    eexists; reflexivity.
Qed.

Lemma loc_QID_unique frame s :
  deduplicated frame -> in_index frame s ->
  exists q, pd.loc_QID frame (JStr s) = Ret (Scalar q) /\ In (s, q) frame.
Proof.
  intros Hnd H. destruct (rows_at_unique _ _ Hnd H) as (q & Hq & Hin).
  exists q. unfold pd.loc_QID. rewrite Hq. split; [reflexivity | exact Hin].
Qed.

Lemma in_index_dec frame s : {in_index frame s} + {~ in_index frame s}.
Proof. apply in_dec, string_dec. Qed.

Lemma resolve_all_present frame slugs :
  Forall (in_index frame) slugs ->
  exists cells, rmap (fun s => pd.loc_QID frame (JStr s)) slugs = Ret cells.
Proof.
  induction 1 as [| s slugs Hs _ [cells IH]]; cbn [rmap]; [eexists; reflexivity | ].
  destruct (loc_QID_present _ _ Hs) as [c Hc]. rewrite Hc, IH. cbn [rbind].
  eexists; reflexivity.
Qed.

Lemma resolve_all_unique frame slugs :
  deduplicated frame ->
  Forall (in_index frame) slugs ->
  exists qids,
    rmap (fun s => pd.loc_QID frame (JStr s)) slugs = Ret (map Scalar qids) /\
    Forall2 (fun s q => In (s, q) frame) slugs qids.
Proof.
  intro Hnd.
  induction 1 as [| s slugs Hs _ (qids & IH & Hall)]; cbn [rmap].
  - exists []. split; [reflexivity | constructor].
  - destruct (loc_QID_unique _ _ Hnd Hs) as (q & Hq & Hin).
    exists (q :: qids). rewrite Hq, IH. cbn [rbind map].
    split; [reflexivity | constructor; assumption].
Qed.

Lemma resolve_some_absent frame slugs :
  Exists (fun s => ~ in_index frame s) slugs ->
  exists s,
    In s slugs /\ ~ in_index frame s /\
    rmap (fun s => pd.loc_QID frame (JStr s)) slugs = Raise (KeyError (JStr s)).
Proof.
  induction slugs as [| s slugs IH]; intro H; [inversion H | ].
  destruct (in_index_dec frame s) as [Hin | Hout].
  - assert (H' : Exists (fun s => ~ in_index frame s) slugs)
      by (inversion H; [contradiction | assumption]).
    destruct (IH H') as (s' & Hs' & Hout' & Hr).
    exists s'. split; [right; exact Hs' | split; [exact Hout' | ] ].
    cbn [rmap]. destruct (loc_QID_present _ _ Hin) as [c Hc].
    rewrite Hc, Hr. reflexivity.
  - exists s. split; [left; reflexivity | split; [exact Hout | ] ].
    cbn [rmap]. rewrite (loc_QID_absent _ _ Hout). reflexivity.
Qed.

Lemma rmap_refers frame entries slugs :
  Forall2 refers_to entries slugs ->
  rmap (fun qs => rbind (Py.getitem qs "titleSlug") (pd.loc_QID frame)) entries
  = rmap (fun s => pd.loc_QID frame (JStr s)) slugs.
Proof.
  induction 1 as [| qs s entries slugs Hqs _ IH]; cbn [rmap];
    [reflexivity | ].
  unfold refers_to in Hqs. rewrite Hqs, IH. reflexivity.
Qed.

Lemma similar_questions_run C rd payload entries slugs st :
  question_field rd "similarQuestions" = Ret (JStr payload) ->
  json_loads C payload = Some (JArr entries) ->
  Forall2 refers_to entries slugs ->
  _get_similar_questions C rd st =
  (rmap (fun s => pd.loc_QID (questions_info (self st)) (JStr s)) slugs, st).
Proof.
  intros Hfield Hloads Hrefs.
  unfold _get_similar_questions, bind, lift, get_self, loads.
  rewrite Hfield, Hloads. cbn [Py.iter].
  rewrite (rmap_refers _ _ _ Hrefs). reflexivity.
Qed.

(** C1.  When the similar-questions payload of a detail response is a
    list of entries that each name a slug, the resolution of these slugs
    through the catalog index of the instance does not raise if every
    slug labels a row of the index, and it returns the numbers of the
    slugs in the order of the payload when the index holds one row per
    slug; if some slug labels no row, it raises the [KeyError] of such a
    slug. *)
Theorem similar_questions_resolution C rd payload entries slugs st :
  question_field rd "similarQuestions" = Ret (JStr payload) ->
  json_loads C payload = Some (JArr entries) ->
  Forall2 refers_to entries slugs ->
  (Forall (in_index (questions_info (self st))) slugs ->
   (exists cells, _get_similar_questions C rd st = (Ret cells, st)) /\
   (deduplicated (questions_info (self st)) ->
    exists qids,
      _get_similar_questions C rd st = (Ret (map Scalar qids), st) /\
      Forall2 (fun s q => In (s, q) (questions_info (self st))) slugs qids)) /\
  (Exists (fun s => ~ in_index (questions_info (self st)) s) slugs ->
   exists s,
     In s slugs /\ ~ in_index (questions_info (self st)) s /\
     _get_similar_questions C rd st = (Raise (KeyError (JStr s)), st)).
Proof.
  intros Hfield Hloads Hrefs.
  rewrite (similar_questions_run C rd payload entries slugs st Hfield Hloads Hrefs).
  split; [intro Hall; split | intro Hex].
  - destruct (resolve_all_present _ _ Hall) as [cells Hc].
    exists cells. rewrite Hc. reflexivity.
  - intro Hnd. destruct (resolve_all_unique _ _ Hnd Hall) as (qids & Hq & Hin).
    exists qids. rewrite Hq. split; [reflexivity | exact Hin].
  - destruct (resolve_some_absent _ _ Hex) as (s & Hs & Hout & Hr).
    exists s. rewrite Hr. repeat split; assumption.
Qed.

Lemma similar_questions_resolution_witness :
  (exists qids,
     _get_similar_questions Demo.collaborators
       (Demo.question false "[3sum]" Demo.snippets) Demo.ready
     = (Ret (map Scalar qids), Demo.ready) /\
     Forall2 (fun s q => In (s, q) (questions_info (self Demo.ready)))
             ["3sum"] qids) /\
  (exists s,
     In s ["3sum"; "4sum"] /\
     ~ in_index (questions_info (self Demo.ready)) s /\
     _get_similar_questions Demo.collaborators
       (Demo.question false "[3sum, 4sum]" Demo.snippets) Demo.ready
     = (Raise (KeyError (JStr s)), Demo.ready)).
Proof.
  split.
  - refine (proj2 (proj1 (similar_questions_resolution
                            Demo.collaborators
                            (Demo.question false "[3sum]" Demo.snippets)
                            "[3sum]" _ ["3sum"] Demo.ready
                            eq_refl eq_refl _) _) _).
    + repeat constructor.
    + apply Forall_cons; [ | apply Forall_nil ].
      unfold in_index. simpl. tauto.
    + unfold deduplicated. simpl.
      repeat constructor; simpl; intuition discriminate.
  - refine (proj2 (similar_questions_resolution
                     Demo.collaborators
                     (Demo.question false "[3sum, 4sum]" Demo.snippets)
                     "[3sum, 4sum]" _ ["3sum"; "4sum"] Demo.ready
                     eq_refl eq_refl _) _).
    + repeat constructor.
    + apply Exists_cons_tl, Exists_cons_hd.
      unfold in_index. simpl. intuition discriminate.
Defined.

(** ** What a returned record is made of *)

Lemma while_retry_Ret_inv U fuel slug : forall r0 s0 r s1,
  while_retry U fuel slug r0 s0 = (Ret r, s1) ->
  r = r0 \/ exists n, r = detail U slug n.
Proof.
  induction fuel as [| fuel IH]; intros r0 s0 r s1 H.
  - destruct (in_retry_statuses (status_code r0)) eqn:Hbusy.
    + unfold while_retry in H. rewrite Hbusy in H. discriminate H.
    + rewrite while_retry_exit in H by exact Hbusy.
      left. inversion H. reflexivity.
  - destruct (in_retry_statuses (status_code r0)) eqn:Hbusy.
    + rewrite while_retry_step in H by exact Hbusy.
      destruct (status_code (detail U slug (posts s0)) =? 404);
        [discriminate H | ].
      right. destruct (IH _ _ _ _ H) as [-> | [n ->]]; eexists; reflexivity.
    + rewrite while_retry_exit in H by exact Hbusy.
      left. inversion H. reflexivity.
Qed.

Lemma try_json_Ret_inv C r msg s rd s' :
  try_except_JSONDecodeError (response_json C r) (raise (ValueError msg)) s
  = (Ret rd, s') ->
  json_loads C (text r) = Some rd /\ self s' = self s.
Proof.
  unfold try_except_JSONDecodeError, response_json, bind, emit, raise, ret.
  destruct (json_loads C (text r)) as [v | ]; intro H; inversion H.
  split; reflexivity.
Qed.

Tactic Notation "inv_bind" hyp(H) "as" ident(a) ident(s) ident(Hm) :=
  apply bind_Ret_inv in H; destruct H as (a & s & Hm & H).

Tactic Notation "inv_lift" hyp(H) "as" ident(a) ident(Hm) :=
  let s := fresh "s" in
  apply bind_Ret_inv in H; destruct H as (a & s & Hm & H);
  apply lift_Ret_inv in Hm; destruct Hm as [Hm ->].

(** The record [scrape] returns is built from the decoded body of an
    answer of the detail endpoint: its flag is the one of that body, and
    its body, code and similar questions are what the three helpers
    return for it, run one after the other on the same instance. *)
Lemma scrape_Ret_inv C U fuel st rec st' :
  scrape C U fuel st = (Ret rec, st') ->
  exists n rd s1 s2 s3,
    json_loads C (text (detail U (titleSlug (self st)) n)) = Some rd /\
    question_field rd "isPaidOnly" = Ret (Question.isPaidOnly rec) /\
    self s1 = self st /\ self s2 = self st /\ self s3 = self st /\
    _get_question_body rd s1 = (Ret (Question.Body rec), s2) /\
    _get_code_snippet C rd s2 = (Ret (Question.Code rec), s3) /\
    _get_similar_questions C rd s3 = (Ret (Question.SimilarQuestions rec), st').
Proof.
  intro H. unfold scrape in H.
  inv_bind H as o s0 Hself. inversion Hself; subst o s0; clear Hself.
  cbv zeta in H.
  inv_bind H as r0 s1 Hpost.
  assert (K1 : self s1 = self st)
    by (inversion Hpost; reflexivity).
  assert (Hr0 : exists n, r0 = detail U (titleSlug (self st)) n)
    by (inversion Hpost; eexists; reflexivity).
  clear Hpost.
  inv_bind H as u s2 Hcheck.
  assert (K2 : self s2 = self st).
  { destruct (status_code r0 =? 404); inversion Hcheck; subst; exact K1. }
  clear Hcheck u.
  inv_bind H as r s3 Hloop.
  assert (K3 : self s3 = self st).
  { pose proof (keeps_self_while_retry U fuel (titleSlug (self st)) r0 s2) as K.
    rewrite Hloop in K. simpl in K. rewrite K. exact K2. }
  assert (Hr : exists n, r = detail U (titleSlug (self st)) n).
  { destruct (while_retry_Ret_inv _ _ _ _ _ _ _ Hloop) as [-> | Hn];
      assumption. }
  clear Hloop Hr0 K1 K2 r0 s1 s2.
  inv_bind H as u s4 Hok.
  assert (K4 : self s4 = self st).
  { destruct (negb (ok r)); inversion Hok; subst; exact K3. }
  clear Hok u K3 s3.
  inv_bind H as rd s5 Hjson.
  apply try_json_Ret_inv in Hjson. destruct Hjson as [Hrd K5].
  rewrite K4 in K5. clear K4 s4.
  inv_lift H as qid Hqid. inv_lift H as title Htitle.
  inv_bind H as o s6 Hself. inversion Hself; subst o s6; clear Hself.
  inv_lift H as difficulty Hdiff. inv_lift H as hints Hhints.
  inv_lift H as companies Hcomp. inv_lift H as tags Htags.
  inv_lift H as tags' Hiter. inv_lift H as topics Htopics.
  inv_lift H as paid Hpaid.
  inv_bind H as body s6 Hbody. inv_bind H as code s7 Hcode.
  inv_bind H as similar s8 Hsimilar.
  inversion H; subst rec s8; clear H. simpl.
  assert (K6 : self s6 = self st).
  { pose proof (keeps_self_body rd s5) as K. rewrite Hbody in K.
    simpl in K. rewrite K. exact K5. }
  assert (K7 : self s7 = self st).
  { pose proof (keeps_self_code C rd s6) as K. rewrite Hcode in K.
    simpl in K. rewrite K. exact K6. }
  destruct Hr as [n ->].
  exists n, rd, s5, s6, s7. repeat split; assumption.
Qed.


(** ** Body and code of the record *)

Lemma body_paid rd st :
  question_field rd "isPaidOnly" = Ret (JBool true) ->
  _get_question_body rd st = (Ret (JStr paid_only_msg), warned st).
Proof.
  intro H. unfold _get_question_body, bind, lift. rewrite H. reflexivity.
Qed.

Lemma code_paid C rd st :
  question_field rd "isPaidOnly" = Ret (JBool true) ->
  _get_code_snippet C rd st =
  (Ret (premium_stub C (titleSlug (self st))), warned st).
Proof.
  intro H. unfold _get_code_snippet, bind, lift. rewrite H. reflexivity.
Qed.

(** C2.  For a detail response whose flag [isPaidOnly] is true, whatever
    else it holds, the body is the fixed sentence about paid subscribers
    and the code is the premium template filled with the camel-cased
    slug: so answer the two helpers, and so reads every record that
    [scrape] returns with this flag, which is the flag of the response
    it was made from. *)
Theorem paid_only_placeholders C U fuel st :
  (forall rd,
     question_field rd "isPaidOnly" = Ret (JBool true) ->
     _get_question_body rd st = (Ret (JStr paid_only_msg), warned st) /\
     _get_code_snippet C rd st =
     (Ret (premium_stub C (titleSlug (self st))), warned st)) /\
  (forall rec st',
     scrape C U fuel st = (Ret rec, st') ->
     Question.isPaidOnly rec = JBool true ->
     (exists n rd,
        json_loads C (text (detail U (titleSlug (self st)) n)) = Some rd /\
        question_field rd "isPaidOnly" = Ret (JBool true)) /\
     Question.Body rec = JStr paid_only_msg /\
     Question.Code rec = premium_stub C (titleSlug (self st))).
Proof.
  split.
  - intros rd H. split; [apply body_paid | apply code_paid]; exact H.
  - intros rec st' Hrun Hflag.
    destruct (scrape_Ret_inv _ _ _ _ _ _ Hrun)
      as (n & rd & s1 & s2 & s3 & Hrd & Hpaid & K1 & K2 & K3 & Hb & Hc & _).
    rewrite Hflag in Hpaid.
    rewrite (body_paid rd s1 Hpaid) in Hb.
    rewrite (code_paid C rd s2 Hpaid), K2 in Hc.
    inversion Hb. inversion Hc.
    split; [exists n, rd; split; assumption | split; reflexivity].
Qed.

Lemma paid_only_placeholders_witness :
  exists rec st',
    scrape Demo.collaborators (Demo.steady "LISTING" "PAID") 0 Demo.ready
    = (Ret rec, st') /\
    Question.isPaidOnly rec = JBool true /\
    Question.Body rec
    = JStr "This questions is only for paid Leetcode subscribers." /\
    Question.Code rec = JStr "# premium only: Solution_two-sum".
Proof.
  eexists. eexists.
  split; [vm_compute; reflexivity | ]. split; [reflexivity | ].
  exact (proj2 (proj2 (paid_only_placeholders
                         Demo.collaborators (Demo.steady "LISTING" "PAID")
                         0 Demo.ready)
                      _ _ eq_refl eq_refl)).
Defined.

Lemma is_python3_spec c b : lang_is_python3 c b -> is_python3 c = Ret b.
Proof.
  intros (v & Hv & Hb). unfold is_python3. rewrite Hv. simpl.
  rewrite Hb. reflexivity.
Qed.

Lemma rfilter_total l :
  Forall (fun c => exists b, lang_is_python3 c b) l ->
  exists l', rfilter is_python3 l = Ret l'.
Proof.
  induction 1 as [| c l [b Hb] _ [l' IH]]; cbn [rfilter];
    [eexists; reflexivity | ].
  rewrite (is_python3_spec _ _ Hb), IH. eexists; reflexivity.
Qed.

Lemma rfilter_none l : no_python3 l -> rfilter is_python3 l = Ret [].
Proof.
  induction 1 as [| c l Hc _ IH]; cbn [rfilter]; [reflexivity | ].
  rewrite (is_python3_spec _ _ Hc), IH. reflexivity.
Qed.

Lemma rfilter_first l cs :
  first_python3 l cs -> exists rest, rfilter is_python3 l = Ret (cs :: rest).
Proof.
  intros (before & after & -> & Hbefore & Hcs & Hafter).
  induction Hbefore as [| c before Hc _ [rest IH]]; cbn [rfilter app].
  - destruct (rfilter_total _ Hafter) as [l' Hl'].
    rewrite (is_python3_spec _ _ Hcs), Hl'. eexists; reflexivity.
  - rewrite (is_python3_spec _ _ Hc), IH. eexists; reflexivity.
Qed.

Lemma code_free_first C rd snippets cs code st :
  question_field rd "isPaidOnly" = Ret (JBool false) ->
  question_field rd "codeSnippets" = Ret (JArr snippets) ->
  first_python3 snippets cs ->
  Py.getitem cs "code" = Ret code ->
  _get_code_snippet C rd st = (Ret code, st).
Proof.
  intros Hflag Hsnip Hfirst Hcode.
  destruct (rfilter_first _ _ Hfirst) as [rest Hr]. unfold is_python3 in Hr.
  unfold _get_code_snippet, bind, lift, get_self.
  rewrite Hflag. cbn [Py.truthy negb]. rewrite Hsnip. cbn [Py.iter].
  rewrite Hr, Hcode. reflexivity.
Qed.

Lemma code_free_none C rd snippets st :
  question_field rd "isPaidOnly" = Ret (JBool false) ->
  question_field rd "codeSnippets" = Ret (JArr snippets) ->
  no_python3 snippets ->
  _get_code_snippet C rd st = (Ret (no_stub C (titleSlug (self st))), st).
Proof.
  intros Hflag Hsnip Hnone.
  pose proof (rfilter_none _ Hnone) as Hr. unfold is_python3 in Hr.
  unfold _get_code_snippet, bind, lift, get_self.
  rewrite Hflag. cbn [Py.truthy negb]. rewrite Hsnip. cbn [Py.iter].
  rewrite Hr. reflexivity.
Qed.

(** C6.  For a detail response whose flag [isPaidOnly] is false and
    whose code snippets all have a language slug: when one of them is in
    Python 3, the code is the [code] of the first such snippet, as it
    stands; when none is, the code is the no-stub template filled with
    the camel-cased slug.  So answers the helper, and so reads every
    record that [scrape] returns with this flag, which is the flag of
    the response it was made from. *)
Theorem free_code_stub C U fuel st :
  (forall rd snippets,
     question_field rd "isPaidOnly" = Ret (JBool false) ->
     question_field rd "codeSnippets" = Ret (JArr snippets) ->
     (forall cs code,
        first_python3 snippets cs ->
        Py.getitem cs "code" = Ret code ->
        _get_code_snippet C rd st = (Ret code, st)) /\
     (no_python3 snippets ->
      _get_code_snippet C rd st =
      (Ret (no_stub C (titleSlug (self st))), st))) /\
  (forall rec st',
     scrape C U fuel st = (Ret rec, st') ->
     Question.isPaidOnly rec = JBool false ->
     exists n rd,
       json_loads C (text (detail U (titleSlug (self st)) n)) = Some rd /\
       question_field rd "isPaidOnly" = Ret (JBool false) /\
       forall snippets,
         question_field rd "codeSnippets" = Ret (JArr snippets) ->
         (forall cs code,
            first_python3 snippets cs ->
            Py.getitem cs "code" = Ret code ->
            Question.Code rec = code) /\
         (no_python3 snippets ->
          Question.Code rec = no_stub C (titleSlug (self st)))).
Proof.
  split.
  - intros rd snippets Hflag Hsnip. split.
    + intros cs code. apply code_free_first; assumption.
    + apply code_free_none; assumption.
  - intros rec st' Hrun Hflag.
    destruct (scrape_Ret_inv _ _ _ _ _ _ Hrun)
      as (n & rd & s1 & s2 & s3 & Hrd & Hpaid & K1 & K2 & K3 & Hb & Hc & _).
    rewrite Hflag in Hpaid.
    exists n, rd. split; [exact Hrd | split; [exact Hpaid | ] ].
    intros snippets Hsnip. split.
    + intros cs code Hfirst Hcode.
      rewrite (code_free_first C rd snippets cs code s2 Hpaid Hsnip Hfirst Hcode)
        in Hc.
      inversion Hc. reflexivity.
    + intro Hnone.
      rewrite (code_free_none C rd snippets s2 Hpaid Hsnip Hnone), K2 in Hc.
      inversion Hc. reflexivity.
Qed.

Lemma free_code_stub_witness :
  _get_code_snippet Demo.collaborators
    (Demo.question false "[3sum]" Demo.snippets) Demo.ready
  = (Ret (JStr "class Solution: pass"), Demo.ready) /\
  _get_code_snippet Demo.collaborators
    (Demo.question false "[3sum]" [Demo.snippet "cpp" "class Solution {};"])
    Demo.ready
  = (Ret (JStr "# no python stub: Solution_two-sum"), Demo.ready).
Proof.
  split.
  - refine (proj1 (proj1 (free_code_stub
                            Demo.collaborators (Demo.steady "LISTING" "FREE")
                            0 Demo.ready)
                         (Demo.question false "[3sum]" Demo.snippets)
                         Demo.snippets eq_refl eq_refl)
                  (Demo.snippet "python3" "class Solution: pass") _ _ eq_refl).
    exists [Demo.snippet "cpp" "class Solution {};"],
           [Demo.snippet "python3" "class Other: pass"].
    split; [reflexivity | ]. split; [ | split ].
    + apply Forall_cons; [ | apply Forall_nil ].
      exists (JStr "cpp"). split; reflexivity.
    + exists (JStr "python3"). split; reflexivity.
    + apply Forall_cons; [ | apply Forall_nil ].
      exists true, (JStr "python3"). split; reflexivity.
  - refine (proj2 (proj1 (free_code_stub
                            Demo.collaborators (Demo.steady "LISTING" "FREE")
                            0 Demo.ready)
                         (Demo.question false "[3sum]"
                            [Demo.snippet "cpp" "class Solution {};"])
                         [Demo.snippet "cpp" "class Solution {};"]
                         eq_refl eq_refl) _).
    apply Forall_cons; [ | apply Forall_nil ].
    exists (JStr "cpp"). split; reflexivity.
Defined.

(** ** A failing call *)

(** C8.  When [scrape] raises, its caller gets the exception and no
    record, and the instance is as it was before the call: same slug,
    same catalog index. *)
Theorem scrape_failure_is_all_or_nothing C U fuel st e :
  fst (scrape C U fuel st) = Raise e ->
  returned (fst (scrape C U fuel st)) = None /\
  self (snd (scrape C U fuel st)) = self st /\
  titleSlug (self (snd (scrape C U fuel st))) = titleSlug (self st) /\
  questions_info (self (snd (scrape C U fuel st))) = questions_info (self st).
Proof.
  intro H. pose proof (keeps_self_scrape C U fuel st) as K.
  rewrite H, K. repeat split; reflexivity.
Qed.

Lemma scrape_failure_is_all_or_nothing_witness :
  fst (scrape Demo.collaborators (Demo.steady "LISTING" "FREE-UNKNOWN") 0
              Demo.ready)
  = Raise (KeyError (JStr "4sum")) /\
  returned (fst (scrape Demo.collaborators
                        (Demo.steady "LISTING" "FREE-UNKNOWN") 0 Demo.ready))
  = None /\
  self (snd (scrape Demo.collaborators
                    (Demo.steady "LISTING" "FREE-UNKNOWN") 0 Demo.ready))
  = self Demo.ready.
Proof.
  split; [reflexivity | ].
  pose proof (scrape_failure_is_all_or_nothing
                Demo.collaborators (Demo.steady "LISTING" "FREE-UNKNOWN") 0
                Demo.ready (KeyError (JStr "4sum")) eq_refl) as H.
  split; [exact (proj1 H) | exact (proj1 (proj2 H))].
Defined.

(** ** Two calls against the same upstream *)

Lemma reads_ret {A : Type} (a : A) : reads_self_only (ret a).
Proof. intros st st' H. split; [reflexivity | exact H]. Qed.

Lemma reads_raise {A : Type} (e : exn) : reads_self_only (@raise A e).
Proof. intros st st' H. split; [reflexivity | exact H]. Qed.

Lemma reads_lift {A : Type} (r : res A) : reads_self_only (lift r).
Proof. intros st st' H. split; [reflexivity | exact H]. Qed.

Lemma reads_emit (e : event) : reads_self_only (emit e).
Proof. intros st st' H. split; [reflexivity | exact H]. Qed.

Lemma reads_get_self : reads_self_only get_self.
Proof. intros st st' H. simpl. rewrite H. split; reflexivity. Qed.

Lemma reads_bind {A B : Type} (m : M A) (f : A -> M B) :
  reads_self_only m -> (forall a, reads_self_only (f a)) ->
  reads_self_only (bind m f).
Proof.
  intros Hm Hf st st' H. unfold bind.
  destruct (Hm st st' H) as [E1 E2].
  destruct (m st) as [r1 s1], (m st') as [r2 s2]. simpl in E1, E2. subst r2.
  destruct r1 as [a | e |]; [ | split; [reflexivity | exact E2] .. ].
  apply Hf. exact E2.
Qed.

Lemma reads_try {A : Type} (m h : M A) :
  reads_self_only m -> reads_self_only h ->
  reads_self_only (try_except_JSONDecodeError m h).
Proof.
  intros Hm Hh st st' H. unfold try_except_JSONDecodeError.
  destruct (Hm st st' H) as [E1 E2].
  destruct (m st) as [r1 s1], (m st') as [r2 s2]. simpl in E1, E2. subst r2.
  destruct r1 as [a | e |]; [ | | split; [reflexivity | exact E2] ].
  - split; [reflexivity | exact E2].
  - destruct e; try (split; [reflexivity | exact E2]). apply Hh. exact E2.
Qed.

Lemma reads_if {A : Type} (b : bool) (m1 m2 : M A) :
  reads_self_only m1 -> reads_self_only m2 ->
  reads_self_only (if b then m1 else m2).
Proof. destruct b; intros; assumption. Qed.

Lemma reads_warnings_warn msg : reads_self_only (warnings_warn msg).
Proof. apply reads_emit. Qed.

Lemma reads_time_sleep seconds : reads_self_only (time_sleep seconds).
Proof. apply reads_emit. Qed.

Create HintDb reads.

#[local] Hint Resolve reads_ret reads_raise reads_lift reads_emit
  reads_get_self reads_try reads_if reads_warnings_warn reads_time_sleep
  : reads.

Ltac reads :=
  repeat first
    [ solve [ auto with reads ]
    | apply reads_bind; [ | intro ]
    | match goal with
      | |- reads_self_only (match ?x with _ => _ end) => destruct x
      | |- reads_self_only (let _ := _ in _) => cbv zeta
      end ].

Section Steady.

Variable C : Collaborators.
Variable U : Upstream.

Hypothesis listing_steady : forall n m, listing U n = listing U m.
Hypothesis detail_steady : forall slug n m, detail U slug n = detail U slug m.

Lemma reads_requests_post url slug :
  reads_self_only (requests_post U url slug).
Proof.
  intros st st' H. simpl.
  rewrite (detail_steady slug (posts st) (posts st')).
  split; [reflexivity | exact H].
Qed.

Lemma reads_response_json r : reads_self_only (response_json C r).
Proof. unfold response_json. reads. Qed.

Lemma reads_body rd : reads_self_only (_get_question_body rd).
Proof. unfold _get_question_body, warnings_warn. reads. Qed.

Lemma reads_code rd : reads_self_only (_get_code_snippet C rd).
Proof. unfold _get_code_snippet, warnings_warn. reads. Qed.

Lemma reads_similar rd : reads_self_only (_get_similar_questions C rd).
Proof. unfold _get_similar_questions. reads. Qed.

Lemma reads_while_retry fuel slug r :
  reads_self_only (while_retry U fuel slug r).
Proof.
  revert r. induction fuel as [| fuel IH]; intros r st st' H;
    destruct (in_retry_statuses (status_code r)) eqn:Hbusy;
    try (rewrite !while_retry_exit by exact Hbusy;
         split; [reflexivity | exact H]).
  - unfold while_retry. rewrite Hbusy. split; [reflexivity | exact H].
  - rewrite !while_retry_step by exact Hbusy.
    rewrite (detail_steady slug (posts st') (posts st)).
    destruct (status_code (detail U slug (posts st)) =? 404).
    + split; [reflexivity | exact H].
    + apply IH. exact H.
Qed.

Lemma reads_scrape fuel : reads_self_only (scrape C U fuel).
Proof.
  unfold scrape.
  pose proof reads_requests_post. pose proof reads_response_json.
  pose proof reads_while_retry. pose proof reads_body.
  pose proof reads_code. pose proof reads_similar.
  reads.
Qed.

End Steady.

Section Twice.

Variable C : Collaborators.
Variable U : Upstream.

Hypothesis listing_steady : forall n m, listing U n = listing U m.
Hypothesis detail_steady : forall slug n m, detail U slug n = detail U slug m.

(** The loader does not look at the instance, and the listing answers
    the same every time. *)
Lemma fetch_all_blind st st' :
  fst (fetch_all_questions_id_and_stub C U st)
  = fst (fetch_all_questions_id_and_stub C U st').
Proof.
  pose proof (listing_steady (gets st') (gets st)) as E.
  destruct (ok (listing U (gets st))) eqn:Hok.
  - destruct (json_loads C (text (listing U (gets st)))) as [req | ] eqn:Hreq.
    + rewrite (fetch_all_decoded C U st req Hok Hreq).
      rewrite (fetch_all_decoded C U st' req); rewrite ?E; auto.
    + rewrite (fetch_all_undecodable C U st Hok Hreq).
      rewrite (fetch_all_undecodable C U st'); rewrite ?E; auto.
  - rewrite (fetch_all_http_error C U st Hok).
    rewrite (fetch_all_http_error C U st'); rewrite ?E; auto.
Qed.

Lemma init_run slug st :
  __init__ C U slug st =
  match fetch_all_questions_id_and_stub C U
          (mkState (mkGetQuestion slug (questions_info (self st)))
                   (gets st) (posts st) (trace st)) with
  | (Ret info, s) =>
      (Ret tt,
       mkState (mkGetQuestion (titleSlug (self s)) info)
               (gets s) (posts s) (trace s))
  | (Raise e, s) => (Raise e, s)
  | (OutOfFuel, s) => (OutOfFuel, s)
  end.
Proof. reflexivity. Qed.

(** The constructor overwrites the instance: its outcome, and the
    instance it leaves when it succeeds, do not depend on the state it
    starts from. *)
Lemma init_blind slug st st' :
  fst (__init__ C U slug st) = fst (__init__ C U slug st') /\
  (forall u, fst (__init__ C U slug st) = Ret u ->
             self (snd (__init__ C U slug st))
             = self (snd (__init__ C U slug st'))).
Proof.
  rewrite !init_run.
  set (s0 := mkState (mkGetQuestion slug (questions_info (self st)))
                     (gets st) (posts st) (trace st)).
  set (s0' := mkState (mkGetQuestion slug (questions_info (self st')))
                      (gets st') (posts st') (trace st')).
  pose proof (fetch_all_blind s0 s0') as E.
  pose proof (keeps_self_fetch_all C U s0) as K.
  pose proof (keeps_self_fetch_all C U s0') as K'.
  destruct (fetch_all_questions_id_and_stub C U s0) as [r s],
           (fetch_all_questions_id_and_stub C U s0') as [r' s'].
  simpl in E, K, K'. subst r'.
  destruct r as [info | e |]; simpl; split; try reflexivity;
    try (intros u Hu; discriminate Hu).
  intros _ _. rewrite K, K'. reflexivity.
Qed.

Lemma fetch_blind fuel slug st st' :
  fst (fetch C U fuel slug st) = fst (fetch C U fuel slug st').
Proof.
  unfold fetch, bind.
  destruct (init_blind slug st st') as [E Hself].
  destruct (__init__ C U slug st) as [r s], (__init__ C U slug st') as [r' s'].
  simpl in E, Hself. subst r'.
  destruct r as [u | e |]; try reflexivity.
  apply (reads_scrape C U detail_steady fuel). exact (Hself u eq_refl).
Qed.

Lemma scrape_again fuel st :
  fst (scrape C U fuel (snd (scrape C U fuel st))) = fst (scrape C U fuel st).
Proof.
  apply (reads_scrape C U detail_steady fuel). apply keeps_self_scrape.
Qed.

End Twice.

(** C9.  Against an upstream whose two endpoints answer the same every
    time, a second [GetQuestion(slug).scrape()] ends as the first one
    did, and so does a second [scrape] on the same instance: when the
    first returns a record, the second returns the same record, field
    for field. *)
Theorem fetch_twice_same_record C U fuel slug st :
  (forall n m, listing U n = listing U m) ->
  (forall s n m, detail U s n = detail U s m) ->
  fst (fetch C U fuel slug (snd (fetch C U fuel slug st)))
  = fst (fetch C U fuel slug st) /\
  fst (scrape C U fuel (snd (scrape C U fuel st)))
  = fst (scrape C U fuel st).
Proof.
  intros Hl Hd. split.
  - apply fetch_blind; assumption.
  - apply scrape_again; assumption.
Qed.

Lemma fetch_twice_same_record_witness :
  (exists rec,
     fst (fetch Demo.collaborators (Demo.steady "LISTING" "FREE") 0 "two-sum"
                Demo.fresh) = Ret rec) /\
  fst (fetch Demo.collaborators (Demo.steady "LISTING" "FREE") 0 "two-sum"
         (snd (fetch Demo.collaborators (Demo.steady "LISTING" "FREE") 0
                     "two-sum" Demo.fresh)))
  = fst (fetch Demo.collaborators (Demo.steady "LISTING" "FREE") 0 "two-sum"
               Demo.fresh).
Proof.
  split; [eexists; vm_compute; reflexivity | ].
  refine (proj1 (fetch_twice_same_record
                   Demo.collaborators (Demo.steady "LISTING" "FREE") 0
                   "two-sum" Demo.fresh _ _)).
  - intros n m. reflexivity.
  - intros s n m. reflexivity.
Defined.

(** ** Fuel, statuses and a whole run *)

(** Fuel only bounds the loop: an outcome reached with some fuel is the
    outcome with any larger fuel. *)
Lemma while_retry_more_fuel U slug fuel : forall r st k,
  fst (while_retry U fuel slug r st) <> OutOfFuel ->
  while_retry U (fuel + k) slug r st = while_retry U fuel slug r st.
Proof.
  induction fuel as [| fuel IH]; intros r st k H;
    destruct (in_retry_statuses (status_code r)) eqn:Hbusy;
    try (rewrite !while_retry_exit by exact Hbusy; reflexivity).
  - exfalso. apply H. unfold while_retry. rewrite Hbusy. reflexivity.
  - cbn [Nat.add]. rewrite while_retry_step in H by exact Hbusy.
    rewrite !while_retry_step by exact Hbusy.
    destruct (status_code (detail U slug (posts st)) =? 404);
      [reflexivity | ].
    apply IH. exact H.
Qed.

Lemma scrape_more_fuel C U fuel st k :
  fst (scrape C U fuel st) <> OutOfFuel ->
  scrape C U (fuel + k) st = scrape C U fuel st.
Proof.
  unfold scrape.
  rewrite !(bind_Ret get_self _ st (self st) st eq_refl). cbv zeta.
  rewrite !(bind_Ret (requests_post _ _ _) _ st _ _ eq_refl).
  match goal with
  | |- fst (bind _ (fun _ => bind _ ?K) _) <> _ -> _ => set (rest := K)
  end.
  unfold bind, ret.
  destruct (status_code (detail U (titleSlug (self st)) (posts st)) =? 404);
    [reflexivity | ].
  intro H. rewrite while_retry_more_fuel; [reflexivity | ].
  intro E. apply H.
  destruct (while_retry U fuel (titleSlug (self st))
              (detail U (titleSlug (self st)) (posts st)) _) as [r s].
  simpl in E. subst r. reflexivity.
Qed.

(** Among the statuses of HTTP, from 100 to 599, the good ones for
    [response.ok] are those below 400. *)
Lemma ok_below_400 r :
  100 <= status_code r < 600 -> (ok r = true <-> status_code r < 400).
Proof.
  intro H. unfold ok. rewrite negb_true_iff, andb_false_iff.
  rewrite Z.leb_gt, Z.ltb_ge. lia.
Qed.

(** The scenario of the slug [two-sum]: the catalog gives it the number
    1, the detail response is free, has Python 3 snippets, two hints and
    one similar question known to the catalog. *)
Example scenario_two_sum :
  exists rec st',
    fetch Demo.collaborators (Demo.steady "LISTING" "FREE") 0 "two-sum"
          Demo.fresh = (Ret rec, st') /\
    pd.loc_QID (questions_info (self st')) (JStr "two-sum") = Ret (Scalar 1) /\
    Question.Hints rec
    = JArr [JStr "Use a hash map."; JStr "One pass is enough."] /\
    Question.SimilarQuestions rec = [Scalar 15] /\
    Question.Code rec = JStr "class Solution: pass" /\
    trace st' = [Get ALL_URL; Json; Post BASE_URL "two-sum"; Json].
Proof.
  eexists. eexists. split; [vm_compute; reflexivity | ].
  repeat split.
Qed.

(** ** At the edge of the statements above *)

(** A listing body that decodes but has no [stat_status_pairs] is not a
    decode error: the look-up of the key raises. *)
Lemma load_without_pairs C U st members :
  ok (listing U (gets st)) = true ->
  json_loads C (text (listing U (gets st))) = Some (JObj members) ->
  Py.assoc "stat_status_pairs" members = None ->
  fetch_all_questions_id_and_stub C U st =
  (Raise (KeyError (JStr "stat_status_pairs")), listed st [Json]).
Proof.
  intros Hok Hreq Hnone.
  rewrite (fetch_all_decoded C U st _ Hok Hreq).
  unfold Py.getitem. rewrite Hnone. reflexivity.
Qed.

(** A free question whose [codeSnippets] is [None] has nothing to loop
    over. *)
Lemma code_free_null C rd st :
  question_field rd "isPaidOnly" = Ret (JBool false) ->
  question_field rd "codeSnippets" = Ret JNull ->
  _get_code_snippet C rd st = (Raise TypeError, st).
Proof.
  intros Hflag Hsnip. unfold _get_code_snippet, bind, lift, get_self.
  rewrite Hflag. cbn [Py.truthy negb]. rewrite Hsnip. reflexivity.
Qed.

(** A status of 600 or more is no error for [response.ok]. *)
Lemma ok_from_600 r : 600 <= status_code r -> ok r = true.
Proof.
  intro H. unfold ok. apply negb_true_iff, andb_false_iff.
  right. apply Z.ltb_ge. exact H.
Qed.

(** * Further properties *)

(** ** A good answer of the detail endpoint *)

Lemma ok_not_retried r :
  ok r = true -> in_retry_statuses (status_code r) = false.
Proof.
  intro H. destruct (in_retry_statuses (status_code r)) eqn:E; [ | reflexivity ].
  rewrite (in_retry_statuses_not_ok r E) in H. discriminate H.
Qed.

Lemma ok_not_404 r : ok r = true -> (status_code r =? 404) = false.
Proof.
  unfold ok. intro H. apply negb_true_iff, andb_false_iff in H.
  apply Z.eqb_neq. destruct H as [H | H].
  - apply Z.leb_gt in H. lia.
  - apply Z.ltb_ge in H. lia.
Qed.

Lemma decoded_skipped st slug k :
  decoded (skipped st slug k) slug 0 = decoded st slug k.
Proof.
  unfold decoded, skipped. simpl. apply state_eq; [lia | ].
  rewrite <- app_assoc.
  change (Post BASE_URL slug :: retries slug k ++ [Json])%list
    with ((Post BASE_URL slug :: retries slug k) ++ [Json])%list.
  rewrite <- attempts_retries, <- app_assoc. reflexivity.
Qed.

Lemma decoded_sent st slug k :
  mkState (self (sent st slug k)) (gets (sent st slug k))
          (posts (sent st slug k)) (trace (sent st slug k) ++ [Json])
  = decoded st slug k.
Proof.
  unfold decoded, sent. simpl. apply state_eq; [reflexivity | ].
  rewrite <- app_assoc. reflexivity.
Qed.

Lemma scrape_first_ok C U fuel st :
  ok (detail U (titleSlug (self st)) (posts st)) = true ->
  scrape C U fuel st =
  match json_loads C (text (detail U (titleSlug (self st)) (posts st))) with
  | Some rd => assemble C rd (decoded st (titleSlug (self st)) 0)
  | None =>
      (Raise (ValueError
                (parse_failure_msg (detail U (titleSlug (self st)) (posts st)))),
       decoded st (titleSlug (self st)) 0)
  end.
Proof.
  intro Hok. start_scrape st.
  unfold bind at 1. rewrite (ok_not_404 _ Hok). unfold ret at 1.
  unfold bind at 1. rewrite while_retry_exit by (apply ok_not_retried, Hok).
  unfold bind at 1. rewrite Hok. cbn [negb]. unfold ret at 1.
  unfold bind at 1, try_except_JSONDecodeError, response_json.
  unfold bind at 1, emit.
  rewrite decoded_sent.
  destruct (json_loads C
              (text (detail U (titleSlug (self st)) (posts st)))) as [rd | ];
    reflexivity.
Qed.

(** X1.  A good answer of the detail endpoint whose body cannot be
    decoded, on the first request or after [k] retried ones, makes
    [scrape] raise a [ValueError] whose message holds the status and the
    first 200 characters of the body; the decoder was called once, and
    nothing was looked up in the body. *)
Theorem scrape_body_undecodable C U k fuel st :
  let r := detail U (titleSlug (self st)) (posts st + k) in
  (forall i, (i < k)%nat ->
     in_retry_statuses
       (status_code (detail U (titleSlug (self st)) (posts st + i))) = true) ->
  ok r = true ->
  json_loads C (text r) = None ->
  (k <= fuel)%nat ->
  scrape C U fuel st =
    (Raise (ValueError (parse_failure_msg r)),
     decoded st (titleSlug (self st)) k) /\
  parse_failure_msg r =
    "Failed to parse JSON response from LeetCode API. Status code: "
    ++ Py.str (status_code r) ++ ". Response: " ++ Py.take 200 (text r).
Proof.
  intros r Hall Hok Hnone Hfuel. split; [ | reflexivity ].
  rewrite (scrape_skip C U k fuel st Hall (ok_not_retried _ Hok) Hfuel).
  rewrite scrape_first_ok by exact Hok.
  cbn [self posts skipped]. fold r. rewrite Hnone.
  rewrite decoded_skipped. reflexivity.
Qed.

Lemma scrape_body_undecodable_witness :
  scrape Demo.collaborators (Demo.steady "LISTING" "<html>busy</html>") 0
         Demo.ready
  = (Raise (ValueError
       "Failed to parse JSON response from LeetCode API. Status code: 200. Response: <html>busy</html>"),
     decoded Demo.ready "two-sum" 0).
Proof.
  refine (proj1 (scrape_body_undecodable
                   Demo.collaborators (Demo.steady "LISTING" "<html>busy</html>")
                   0 0 Demo.ready _ eq_refl eq_refl (le_n 0))).
  intros i Hi. lia.
Defined.

(** X2.  The record depends on the last answer only: once a good answer
    arrives whose body decodes, on the first request or after [k]
    retried ones, [scrape] ends as the assembling of the record from
    this body does, whatever the earlier answers held. *)
Theorem scrape_decoded C U k fuel st rd :
  let r := detail U (titleSlug (self st)) (posts st + k) in
  (forall i, (i < k)%nat ->
     in_retry_statuses
       (status_code (detail U (titleSlug (self st)) (posts st + i))) = true) ->
  ok r = true ->
  json_loads C (text r) = Some rd ->
  (k <= fuel)%nat ->
  scrape C U fuel st = assemble C rd (decoded st (titleSlug (self st)) k).
Proof.
  intros r Hall Hok Hsome Hfuel.
  rewrite (scrape_skip C U k fuel st Hall (ok_not_retried _ Hok) Hfuel).
  rewrite scrape_first_ok by exact Hok.
  cbn [self posts skipped]. fold r. rewrite Hsome.
  rewrite decoded_skipped. reflexivity.
Qed.

Lemma scrape_decoded_witness :
  scrape Demo.collaborators (Demo.busy 2 200) 5 Demo.ready
  = assemble Demo.collaborators (Demo.question false "[3sum]" Demo.snippets)
             (decoded Demo.ready "two-sum" 2).
Proof.
  refine (scrape_decoded Demo.collaborators (Demo.busy 2 200) 2 5 Demo.ready
            _ _ eq_refl eq_refl _).
  - intros i Hi. do 2 (destruct i as [| i]; [reflexivity | ]). lia.
  - lia.
Defined.

(** ** Only the retry loop can go on for ever *)

Lemma rbind_answers {A B : Type} (r : res A) (f : A -> res B) :
  r <> OutOfFuel -> (forall a, f a <> OutOfFuel) -> rbind r f <> OutOfFuel.
Proof.
  destruct r; simpl; intros Hr Hf;
    [apply Hf | discriminate | contradiction Hr; reflexivity].
Qed.

Lemma rmap_answers {A B : Type} (f : A -> res B) (l : list A) :
  (forall a, f a <> OutOfFuel) -> rmap f l <> OutOfFuel.
Proof.
  intro Hf. induction l as [| a l IH]; simpl; [discriminate | ].
  apply rbind_answers; [apply Hf | intro b ].
  apply rbind_answers; [exact IH | discriminate].
Qed.

Lemma rfilter_answers {A : Type} (p : A -> res bool) (l : list A) :
  (forall a, p a <> OutOfFuel) -> rfilter p l <> OutOfFuel.
Proof.
  intro Hp. induction l as [| a l IH]; simpl; [discriminate | ].
  apply rbind_answers; [apply Hp | intro b ].
  apply rbind_answers; [exact IH | discriminate].
Qed.

Lemma getitem_answers d k : Py.getitem d k <> OutOfFuel.
Proof.
  destruct d; simpl; try discriminate.
  destruct (Py.assoc k members); discriminate.
Qed.

Lemma iter_answers v : Py.iter v <> OutOfFuel.
Proof. destruct v; discriminate. Qed.

Lemma question_field_answers rd field : question_field rd field <> OutOfFuel.
Proof.
  unfold question_field.
  repeat (apply rbind_answers; [apply getitem_answers | intro ]).
  apply getitem_answers.
Qed.

Lemma loads_answers C v : loads C v <> OutOfFuel.
Proof.
  destruct v; simpl; try discriminate.
  destruct (json_loads C s); discriminate.
Qed.

Lemma loc_QID_answers frame label : pd.loc_QID frame label <> OutOfFuel.
Proof.
  destruct label; simpl; try discriminate.
  destruct (pd.rows_at frame s) as [| q [| q' qs]]; discriminate.
Qed.

Lemma answers_ret {A : Type} (a : A) : never_runs_out (ret a).
Proof. intro st. discriminate. Qed.

Lemma answers_raise {A : Type} (e : exn) : never_runs_out (@raise A e).
Proof. intro st. discriminate. Qed.

Lemma answers_lift {A : Type} (r : res A) :
  r <> OutOfFuel -> never_runs_out (lift r).
Proof. intros H st. exact H. Qed.

Lemma answers_emit (e : event) : never_runs_out (emit e).
Proof. intro st. discriminate. Qed.

Lemma answers_get_self : never_runs_out get_self.
Proof. intro st. discriminate. Qed.

Lemma answers_bind {A B : Type} (m : M A) (f : A -> M B) :
  never_runs_out m -> (forall a, never_runs_out (f a)) ->
  never_runs_out (bind m f).
Proof.
  intros Hm Hf st. unfold bind. specialize (Hm st).
  destruct (m st) as [[a | e |] s]; simpl in *;
    [apply Hf | discriminate | contradiction Hm; reflexivity].
Qed.

Lemma answers_if {A : Type} (b : bool) (m1 m2 : M A) :
  never_runs_out m1 -> never_runs_out m2 ->
  never_runs_out (if b then m1 else m2).
Proof. destruct b; intros; assumption. Qed.

Lemma answers_body rd : never_runs_out (_get_question_body rd).
Proof.
  unfold _get_question_body, warnings_warn.
  apply answers_bind; [apply answers_lift, question_field_answers | intro paid].
  apply answers_if; [apply answers_lift, question_field_answers | ].
  apply answers_bind; [apply answers_emit | intro; apply answers_ret].
Qed.

Lemma answers_code C rd : never_runs_out (_get_code_snippet C rd).
Proof.
  unfold _get_code_snippet, warnings_warn.
  apply answers_bind; [apply answers_lift, question_field_answers | intro paid].
  apply answers_bind; [apply answers_get_self | intro o].
  apply answers_if.
  - apply answers_bind;
      [apply answers_lift, question_field_answers | intro snippets].
    apply answers_bind; [apply answers_lift, iter_answers | intro entries].
    apply answers_bind.
    + apply answers_lift, rfilter_answers. intro c.
      apply rbind_answers; [apply getitem_answers | discriminate].
    + intros [| first rest]; [apply answers_ret | ].
      apply answers_lift, getitem_answers.
  - apply answers_bind; [apply answers_emit | intro; apply answers_ret].
Qed.

Lemma answers_similar C rd : never_runs_out (_get_similar_questions C rd).
Proof.
  unfold _get_similar_questions.
  apply answers_bind;
    [apply answers_lift, question_field_answers | intro payload].
  apply answers_bind; [apply answers_lift, loads_answers | intro parsed].
  apply answers_bind; [apply answers_lift, iter_answers | intro entries].
  apply answers_bind; [apply answers_get_self | intro o].
  apply answers_lift, rmap_answers. intro qs.
  apply rbind_answers; [apply getitem_answers | apply loc_QID_answers].
Qed.

Lemma answers_assemble C rd : never_runs_out (assemble C rd).
Proof.
  unfold assemble.
  repeat first
    [ apply answers_ret
    | apply answers_body | apply answers_code | apply answers_similar
    | apply answers_get_self
    | apply answers_lift;
      first [ apply question_field_answers | apply iter_answers
            | apply rmap_answers; intro; apply getitem_answers ]
    | apply answers_bind; [ | intro ] ].
Qed.

Lemma least_false (f : nat -> bool) n :
  (forall i, (i < n)%nat -> f i = true) \/
  (exists k, (k < n)%nat /\ f k = false /\ forall i, (i < k)%nat -> f i = true).
Proof.
  induction n as [| n [IH | (k & Hk & Hf & Hall)]].
  - left. intros i Hi. lia.
  - destruct (f n) eqn:E.
    + left. intros i Hi.
      destruct (Nat.eq_dec i n) as [-> | Hne]; [exact E | apply IH; lia].
    + right. exists n. repeat split; [lia | exact E | exact IH].
  - right. exists k. repeat split; [lia | exact Hf | exact Hall].
Qed.

Lemma while_retry_settled_inv U slug fuel : forall r0 s0,
  fst (while_retry U fuel slug r0 s0) <> OutOfFuel ->
  in_retry_statuses (status_code r0) = false \/
  exists j, (j < fuel)%nat /\
    in_retry_statuses (status_code (detail U slug (posts s0 + j))) = false.
Proof.
  induction fuel as [| fuel IH]; intros r0 s0 H;
    destruct (in_retry_statuses (status_code r0)) eqn:Hbusy;
    try (left; reflexivity).
  - exfalso. apply H. unfold while_retry. rewrite Hbusy. reflexivity.
  - right. rewrite while_retry_step in H by exact Hbusy.
    destruct (status_code (detail U slug (posts s0)) =? 404) eqn:E404.
    + exists 0%nat. split; [lia | ]. rewrite Nat.add_0_r.
      destruct (in_retry_statuses (status_code (detail U slug (posts s0))))
        eqn:E; [ | reflexivity ].
      rewrite (in_retry_statuses_not_404 _ E) in E404. discriminate E404.
    + destruct (IH _ _ H) as [Hr | (j & Hj & Hr)].
      * exists 0%nat. split; [lia | ]. rewrite Nat.add_0_r. exact Hr.
      * exists (S j). split; [lia | ].
        replace (posts s0 + S j)%nat with (posts (turned s0 slug 1) + j)%nat
          by (simpl; lia).
        exact Hr.
Qed.

Lemma scrape_settled_inv C U fuel st :
  fst (scrape C U fuel st) <> OutOfFuel ->
  exists k, (k <= fuel)%nat /\
    in_retry_statuses
      (status_code (detail U (titleSlug (self st)) (posts st + k))) = false.
Proof.
  start_scrape st.
  match goal with
  | |- fst (bind _ (fun _ => bind _ ?K) _) <> _ -> _ => set (rest := K)
  end.
  unfold bind, ret.
  destruct (status_code (detail U (titleSlug (self st)) (posts st)) =? 404)
    eqn:E404.
  - intros _. exists 0%nat. split; [lia | ]. rewrite Nat.add_0_r.
    destruct (in_retry_statuses
                (status_code (detail U (titleSlug (self st)) (posts st))))
      eqn:E; [ | reflexivity ].
    rewrite (in_retry_statuses_not_404 _ E) in E404. discriminate E404.
  - intro H.
    destruct (while_retry_settled_inv U (titleSlug (self st)) fuel
                (detail U (titleSlug (self st)) (posts st))
                (sent st (titleSlug (self st)) 0)) as [Hr | (j & Hj & Hr)].
    + intro E. apply H.
      destruct (while_retry U fuel (titleSlug (self st))
                  (detail U (titleSlug (self st)) (posts st)) _) as [r s].
      simpl in E. subst r. reflexivity.
    + exists 0%nat. split; [lia | ]. rewrite Nat.add_0_r. exact Hr.
    + exists (S j). split; [lia | ].
      replace (posts st + S j)%nat
        with (posts (sent st (titleSlug (self st)) 0) + j)%nat
        by (simpl; lia).
      exact Hr.
Qed.

Lemma scrape_first_settled C U fuel st :
  in_retry_statuses
    (status_code (detail U (titleSlug (self st)) (posts st))) = false ->
  fst (scrape C U fuel st) <> OutOfFuel.
Proof.
  intro Hbusy.
  destruct (status_code (detail U (titleSlug (self st)) (posts st)) =? 404)
    eqn:E404.
  - apply Z.eqb_eq in E404. rewrite scrape_first_404 by exact E404. discriminate.
  - apply Z.eqb_neq in E404.
    destruct (ok (detail U (titleSlug (self st)) (posts st))) eqn:Hok.
    + rewrite scrape_first_ok by exact Hok.
      destruct (json_loads C
                  (text (detail U (titleSlug (self st)) (posts st))));
        [apply answers_assemble | discriminate].
    + rewrite scrape_first_error by assumption. discriminate.
Qed.

(** X3.  [scrape] comes to an end exactly when the detail endpoint gives
    an answer outside the retried statuses: with fuel for [fuel] turns
    of the loop, the call returns or raises if and only if one of the
    first [fuel + 1] answers has such a status. *)
Theorem scrape_ends_iff_settled C U fuel st :
  fst (scrape C U fuel st) <> OutOfFuel <->
  exists k, (k <= fuel)%nat /\
    in_retry_statuses
      (status_code (detail U (titleSlug (self st)) (posts st + k))) = false.
Proof.
  split; [apply scrape_settled_inv | ].
  intros (k & Hk & Hr).
  destruct (least_false
              (fun i => in_retry_statuses
                          (status_code
                             (detail U (titleSlug (self st)) (posts st + i))))
              (S k)) as [Hall | (j & Hj & Hf & Hall)].
  - rewrite Hall in Hr by lia. discriminate Hr.
  - rewrite (scrape_skip C U j fuel st Hall Hf) by lia.
    apply scrape_first_settled. exact Hf.
Qed.

Lemma scrape_ends_iff_settled_witness :
  fst (scrape Demo.collaborators (Demo.busy 2 200) 5 Demo.ready) <> OutOfFuel.
Proof.
  apply (proj2 (scrape_ends_iff_settled
                  Demo.collaborators (Demo.busy 2 200) 5 Demo.ready)).
  exists 2%nat. split; [lia | reflexivity].
Defined.

(** ** What a returned record holds, and what the call did *)

Lemma rmap_Ret_inv {A B : Type} (f : A -> res B) : forall l l',
  rmap f l = Ret l' -> Forall2 (fun a b => f a = Ret b) l l'.
Proof.
  induction l as [| a l IH]; simpl; intros l' H.
  - inversion H. constructor.
  - destruct (f a) as [b | e |] eqn:Ea; simpl in H; try discriminate H.
    destruct (rmap f l) as [bs | e |]; simpl in H; try discriminate H.
    inversion H. constructor; [exact Ea | apply IH; reflexivity].
Qed.

Lemma body_Ret_inv rd s b s' :
  _get_question_body rd s = (Ret b, s') ->
  exists paid : json,
    question_field rd "isPaidOnly" = Ret paid /\
    if Py.truthy paid
    then b = JStr paid_only_msg /\ s' = warned s
    else question_field rd "content" = Ret b /\ s' = s.
Proof.
  unfold _get_question_body, bind, lift, warnings_warn, emit, ret.
  destruct (question_field rd "isPaidOnly") as [paid | e |]; try discriminate.
  intro H. exists paid. split; [reflexivity | ].
  destruct (Py.truthy paid); simpl in H.
  - inversion H. split; reflexivity.
  - inversion H. split; reflexivity.
Qed.

Lemma code_Ret_inv C rd s c s' :
  _get_code_snippet C rd s = (Ret c, s') ->
  exists paid : json,
    question_field rd "isPaidOnly" = Ret paid /\
    if Py.truthy paid
    then c = premium_stub C (titleSlug (self s)) /\ s' = warned s
    else s' = s.
Proof.
  unfold _get_code_snippet, bind, lift, warnings_warn, emit, ret, get_self.
  destruct (question_field rd "isPaidOnly") as [paid | e |]; try discriminate.
  intro H. exists paid. split; [reflexivity | ].
  destruct (Py.truthy paid); simpl in H.
  - inversion H. split; reflexivity.
  - destruct (question_field rd "codeSnippets") as [sn | e |];
      try discriminate H.
    destruct (Py.iter sn) as [entries | e |]; try discriminate H.
    destruct (rfilter _ entries) as [[| first rest] | e |];
      try discriminate H.
    + inversion H. reflexivity.
    + destruct (Py.getitem first "code"); inversion H. reflexivity.
Qed.

Lemma similar_keeps_state C rd s : snd (_get_similar_questions C rd s) = s.
Proof.
  unfold _get_similar_questions, bind, lift, get_self.
  destruct (question_field rd "similarQuestions") as [p | e |];
    try reflexivity.
  destruct (loads C p) as [v | e |]; try reflexivity.
  destruct (Py.iter v) as [l | e |]; reflexivity.
Qed.

Lemma warned_twice (s : state) (paid : bool) :
  (if paid then warned (warned s) else s)
  = mkState (self s) (gets s) (posts s) (trace s ++ warnings paid).
Proof.
  destruct paid; unfold warned, warnings; simpl.
  - apply state_eq; [reflexivity | ]. rewrite <- app_assoc. reflexivity.
  - rewrite app_nil_r. destruct s; reflexivity.
Qed.

Lemma assemble_Ret_inv C rd s rec s' :
  assemble C rd s = (Ret rec, s') ->
  (Question.titleSlug rec = titleSlug (self s) /\
   question_field rd "questionFrontendId" = Ret (Question.QID rec) /\
   question_field rd "title" = Ret (Question.title rec) /\
   question_field rd "difficulty" = Ret (Question.difficulty rec) /\
   question_field rd "hints" = Ret (Question.Hints rec) /\
   question_field rd "companyTags" = Ret (Question.Companies rec) /\
   question_field rd "isPaidOnly" = Ret (Question.isPaidOnly rec)) /\
  (exists tags_value tags,
     question_field rd "topicTags" = Ret tags_value /\
     Py.iter tags_value = Ret tags /\
     Forall2 (fun topic name => Py.getitem topic "name" = Ret name)
             tags (Question.topics rec)) /\
  (Py.truthy (Question.isPaidOnly rec) = false ->
   question_field rd "content" = Ret (Question.Body rec)) /\
  s' = mkState (self s) (gets s) (posts s)
         (trace s ++ warnings (Py.truthy (Question.isPaidOnly rec))).
Proof.
  intro H. unfold assemble in H.
  inv_lift H as qid Hqid. inv_lift H as title Htitle.
  inv_bind H as o s0 Hself. inversion Hself; subst o s0; clear Hself.
  inv_lift H as difficulty Hdiff. inv_lift H as hints Hhints.
  inv_lift H as companies Hcomp. inv_lift H as tags_value Htags.
  inv_lift H as tags Hiter. inv_lift H as topics Htopics.
  inv_lift H as paid Hpaid.
  inv_bind H as body s1 Hbody. inv_bind H as code s2 Hcode.
  inv_bind H as similar s3 Hsimilar.
  inversion H; subst rec s3; clear H. cbn [Question.titleSlug Question.QID
    Question.title Question.difficulty Question.Hints Question.Companies
    Question.isPaidOnly Question.topics Question.Body].
  destruct (body_Ret_inv _ _ _ _ Hbody) as (p1 & Hp1 & Hb).
  destruct (code_Ret_inv _ _ _ _ _ Hcode) as (p2 & Hp2 & Hc).
  rewrite Hpaid in Hp1, Hp2. inversion Hp1; subst p1. inversion Hp2; subst p2.
  pose proof (similar_keeps_state C rd s2) as Hs. rewrite Hsimilar in Hs.
  simpl in Hs. subst s'.
  split; [repeat split; assumption | ].
  split; [exists tags_value, tags; repeat split;
          [assumption | assumption | apply rmap_Ret_inv; exact Htopics] | ].
  rewrite <- warned_twice.
  destruct (Py.truthy paid).
  - split; [discriminate | ].
    destruct Hb as [_ ->]. destruct Hc as [_ ->]. reflexivity.
  - split; [intros _; exact (proj1 Hb) | ].
    destruct Hb as [_ ->]. exact Hc.
Qed.

Lemma scrape_Ret_assemble C U fuel st rec st' :
  scrape C U fuel st = (Ret rec, st') ->
  exists k rd,
    (k <= fuel)%nat /\
    (forall i, (i < k)%nat ->
       in_retry_statuses
         (status_code (detail U (titleSlug (self st)) (posts st + i))) = true) /\
    ok (detail U (titleSlug (self st)) (posts st + k)) = true /\
    json_loads C (text (detail U (titleSlug (self st)) (posts st + k)))
    = Some rd /\
    assemble C rd (decoded st (titleSlug (self st)) k) = (Ret rec, st').
Proof.
  intro H.
  assert (Hend : fst (scrape C U fuel st) <> OutOfFuel)
    by (rewrite H; discriminate).
  destruct (scrape_settled_inv C U fuel st Hend) as (k0 & Hk0 & Hr0).
  destruct (least_false
              (fun i => in_retry_statuses
                          (status_code
                             (detail U (titleSlug (self st)) (posts st + i))))
              (S k0)) as [Hall | (k & Hk & Hf & Hall)].
  { rewrite Hall in Hr0 by lia. discriminate Hr0. }
  rewrite (scrape_skip C U k fuel st Hall Hf) in H by lia.
  set (r := detail U (titleSlug (self st)) (posts st + k)) in *.
  destruct (status_code r =? 404) eqn:E404.
  { apply Z.eqb_eq in E404. rewrite scrape_first_404 in H by exact E404.
    discriminate H. }
  apply Z.eqb_neq in E404.
  destruct (ok r) eqn:Hok.
  - rewrite scrape_first_ok in H by exact Hok.
    cbn [self posts skipped] in H. fold r in H.
    destruct (json_loads C (text r)) as [rd | ] eqn:Hrd; [ | discriminate H ].
    rewrite decoded_skipped in H.
    exists k, rd. repeat split; try assumption. lia.
  - rewrite scrape_first_error in H by assumption. discriminate H.
Qed.

(** X5.  What a call that returns a record has done: the request, [k]
    times a sleep of 10 seconds and the request again for some [k] up to
    the fuel, one decoding of the last body, and two warnings if the
    question is paid, none if it is not; it asked the listing endpoint
    nothing and left the instance as it was. *)
Theorem scrape_trace_of_success C U fuel st rec st' :
  scrape C U fuel st = (Ret rec, st') ->
  exists k,
    (k <= fuel)%nat /\
    st' = mkState (self st) (gets st) (posts st + S k)%nat
            (trace st
             ++ Post BASE_URL (titleSlug (self st))
                :: retries (titleSlug (self st)) k
             ++ Json :: warnings (Py.truthy (Question.isPaidOnly rec))).
Proof.
  intro H.
  destruct (scrape_Ret_assemble _ _ _ _ _ _ H)
    as (k & rd & Hk & _ & _ & _ & Ha).
  destruct (assemble_Ret_inv _ _ _ _ _ Ha) as (_ & _ & _ & ->).
  exists k. split; [exact Hk | ].
  unfold decoded. simpl. apply state_eq; [reflexivity | ].
  rewrite <- !app_assoc. simpl. rewrite <- app_assoc. reflexivity.
Qed.

Lemma scrape_trace_of_success_witness :
  exists rec st',
    scrape Demo.collaborators (Demo.steady "LISTING" "PAID") 0 Demo.ready
    = (Ret rec, st') /\
    exists k,
      (k <= 0)%nat /\
      st' = mkState (self Demo.ready) (gets Demo.ready)
              (posts Demo.ready + S k)%nat
              (trace Demo.ready
               ++ Post BASE_URL "two-sum" :: retries "two-sum" k
               ++ Json :: warnings (Py.truthy (Question.isPaidOnly rec))).
Proof.
  eexists. eexists. split; [vm_compute; reflexivity | ].
  exact (scrape_trace_of_success
           Demo.collaborators (Demo.steady "LISTING" "PAID") 0 Demo.ready
           _ _ eq_refl).
Defined.

(** ** From the listing to the look-up *)







(** ** Which endpoint a call talks to *)

Section Quiet.

Variable count : state -> nat.
Variable bad : event -> bool.

Hypothesis count_ignores_trace : forall o g p t t',
  count (mkState o g p t) = count (mkState o g p t').
Hypothesis count_ignores_self : forall o o' g p t,
  count (mkState o g p t) = count (mkState o' g p t).

Lemma quiet_same {A : Type} (m : M A) :
  (forall st, snd (m st) = st) -> quiet count bad m.
Proof.
  intros H st. rewrite H. split; [reflexivity | ].
  exists []. rewrite app_nil_r. split; reflexivity.
Qed.

Lemma quiet_ret {A : Type} (a : A) : quiet count bad (ret a).
Proof. apply quiet_same. reflexivity. Qed.

Lemma quiet_raise {A : Type} (e : exn) : quiet count bad (@raise A e).
Proof. apply quiet_same. reflexivity. Qed.

Lemma quiet_lift {A : Type} (r : res A) : quiet count bad (lift r).
Proof. apply quiet_same. reflexivity. Qed.

Lemma quiet_get_self : quiet count bad get_self.
Proof. apply quiet_same. reflexivity. Qed.

Lemma quiet_set_self o : quiet count bad (set_self o).
Proof.
  intro st. simpl. split.
  - destruct st. apply count_ignores_self.
  - exists []. rewrite app_nil_r. split; reflexivity.
Qed.

Lemma quiet_emit e : bad e = false -> quiet count bad (emit e).
Proof.
  intros He st. simpl. split.
  - destruct st. apply count_ignores_trace.
  - exists [e]. split; [reflexivity | ]. simpl. rewrite He. reflexivity.
Qed.

Lemma quiet_bind {A B : Type} (m : M A) (f : A -> M B) :
  quiet count bad m -> (forall a, quiet count bad (f a)) ->
  quiet count bad (bind m f).
Proof.
  intros Hm Hf st. unfold bind.
  destruct (Hm st) as (Hc & more & Ht & Hb).
  destruct (m st) as [[a | e |] s]; simpl in Hc, Ht;
    try (split; [exact Hc | exists more; split; assumption]).
  destruct (Hf a s) as (Hc' & more' & Ht' & Hb').
  split; [rewrite Hc'; exact Hc | ].
  exists (more ++ more')%list. split.
  - rewrite Ht', Ht, app_assoc. reflexivity.
  - rewrite forallb_app, Hb, Hb'. reflexivity.
Qed.

Lemma quiet_try {A : Type} (m h : M A) :
  quiet count bad m -> quiet count bad h ->
  quiet count bad (try_except_JSONDecodeError m h).
Proof.
  intros Hm Hh st. unfold try_except_JSONDecodeError.
  destruct (Hm st) as (Hc & more & Ht & Hb).
  destruct (m st) as [[a | e |] s]; simpl in Hc, Ht;
    try (split; [exact Hc | exists more; split; assumption]).
  destruct e; try (split; [exact Hc | exists more; split; assumption]).
  destruct (Hh s) as (Hc' & more' & Ht' & Hb').
  split; [rewrite Hc'; exact Hc | ].
  exists (more ++ more')%list. split.
  - rewrite Ht', Ht, app_assoc. reflexivity.
  - rewrite forallb_app, Hb, Hb'. reflexivity.
Qed.

Lemma quiet_if {A : Type} (b : bool) (m1 m2 : M A) :
  quiet count bad m1 -> quiet count bad m2 ->
  quiet count bad (if b then m1 else m2).
Proof. destruct b; intros; assumption. Qed.

End Quiet.

Ltac quiet Ht :=
  repeat first
    [ apply quiet_ret | apply quiet_raise | apply quiet_lift
    | apply quiet_get_self
    | apply (quiet_emit _ _ Ht); reflexivity
    | solve [ auto ]
    | apply quiet_try | apply quiet_if
    | apply quiet_bind; [ | intro ]
    | match goal with
      | |- quiet _ _ (match ?x with _ => _ end) => destruct x
      | |- quiet _ _ (let _ := _ in _) => cbv zeta
      end ].

Lemma gets_ignores_trace o g p t t' :
  gets (mkState o g p t) = gets (mkState o g p t').
Proof. reflexivity. Qed.

Lemma posts_ignores_trace o g p t t' :
  posts (mkState o g p t) = posts (mkState o g p t').
Proof. reflexivity. Qed.

Lemma posts_ignores_self o o' g p t :
  posts (mkState o g p t) = posts (mkState o' g p t).
Proof. reflexivity. Qed.

Section Traffic.

Variable C : Collaborators.
Variable U : Upstream.

Lemma quiet_gets_post url slug :
  quiet gets is_listing_traffic (requests_post U url slug).
Proof.
  intro st. simpl. split; [reflexivity | ].
  exists [Post url slug]. split; reflexivity.
Qed.

Lemma quiet_gets_while_retry fuel slug r :
  quiet gets is_listing_traffic (while_retry U fuel slug r).
Proof.
  revert r. induction fuel as [| fuel IH]; intro r;
    unfold while_retry; fold while_retry;
    destruct (in_retry_statuses (status_code r)); try apply quiet_ret.
  - apply quiet_same. reflexivity.
  - pose proof quiet_gets_post. unfold time_sleep.
    quiet gets_ignores_trace.
Qed.

Lemma quiet_gets_scrape fuel :
  quiet gets is_listing_traffic (scrape C U fuel).
Proof.
  pose proof quiet_gets_post. pose proof quiet_gets_while_retry.
  unfold scrape, response_json, _get_question_body, _get_code_snippet,
    _get_similar_questions, warnings_warn.
  quiet gets_ignores_trace.
Qed.

Lemma quiet_posts_get url :
  quiet posts is_detail_traffic (requests_get U url).
Proof.
  intro st. simpl. split; [reflexivity | ].
  exists [Get url]. split; reflexivity.
Qed.

Lemma quiet_posts_fetch_all :
  quiet posts is_detail_traffic (fetch_all_questions_id_and_stub C U).
Proof.
  pose proof quiet_posts_get.
  unfold fetch_all_questions_id_and_stub, raise_for_status, response_json.
  quiet posts_ignores_trace.
Qed.

Lemma quiet_posts_init slug :
  quiet posts is_detail_traffic (__init__ C U slug).
Proof.
  pose proof quiet_posts_fetch_all.
  pose proof (quiet_set_self posts is_detail_traffic posts_ignores_self).
  unfold __init__.
  quiet posts_ignores_trace.
Qed.

End Traffic.

(** X7.  The two endpoints are kept apart.  [scrape], however it ends,
    sends nothing to the listing endpoint; the loader and the
    constructor, however they end, send nothing to the detail endpoint
    and do not sleep.  Each of them only adds to what has happened. *)
Theorem endpoints_kept_apart C U fuel slug :
  quiet gets is_listing_traffic (scrape C U fuel) /\
  quiet posts is_detail_traffic (fetch_all_questions_id_and_stub C U) /\
  quiet posts is_detail_traffic (__init__ C U slug).
Proof.
  split; [apply quiet_gets_scrape | ].
  split; [apply quiet_posts_fetch_all | apply quiet_posts_init].
Qed.

(** ** The constructor *)

Lemma fetch_all_reads_gets C U st st' :
  gets st = gets st' ->
  fst (fetch_all_questions_id_and_stub C U st)
  = fst (fetch_all_questions_id_and_stub C U st').
Proof.
  intro E.
  destruct (ok (listing U (gets st))) eqn:Hok.
  - destruct (json_loads C (text (listing U (gets st)))) as [req | ] eqn:Hreq.
    + rewrite (fetch_all_decoded C U st req Hok Hreq).
      rewrite (fetch_all_decoded C U st' req); rewrite <- ?E; auto.
    + rewrite (fetch_all_undecodable C U st Hok Hreq).
      rewrite (fetch_all_undecodable C U st'); rewrite <- ?E; auto.
  - rewrite (fetch_all_http_error C U st Hok).
    rewrite (fetch_all_http_error C U st'); rewrite <- ?E; auto.
Qed.



(** X9.  When the loader raises, [GetQuestion(slug).scrape()] raises the
    same exception from the constructor and [scrape] is not reached: no
    request goes to the detail endpoint. *)
Theorem fetch_stops_at_loader C U fuel slug st e :
  fst (fetch_all_questions_id_and_stub C U st) = Raise e ->
  fst (fetch C U fuel slug st) = Raise e /\
  posts (snd (fetch C U fuel slug st)) = posts st /\
  exists more,
    trace (snd (fetch C U fuel slug st)) = (trace st ++ more)%list /\
    forallb (fun ev => negb (is_detail_traffic ev)) more = true.
Proof.
  intro H.
  assert (Hinit : fst (__init__ C U slug st) = Raise e).
  { rewrite init_run.
    rewrite (fetch_all_reads_gets C U st
               (mkState (mkGetQuestion slug (questions_info (self st)))
                        (gets st) (posts st) (trace st)) eq_refl) in H.
    destruct (fetch_all_questions_id_and_stub C U _) as [[info | e' |] s];
      simpl in H; try discriminate H. inversion H. reflexivity. }
  pose proof (quiet_posts_init C U slug st) as Hq.
  unfold fetch, bind.
  destruct (__init__ C U slug st) as [[u | e' |] s]; simpl in Hinit;
    try discriminate Hinit.
  inversion Hinit; subst e'. simpl. split; [reflexivity | exact Hq].
Qed.

Lemma fetch_stops_at_loader_witness :
  fst (fetch Demo.collaborators (Demo.listing_only 503 "Service Unavailable")
             0 "two-sum" Demo.fresh)
  = Raise (HTTPError 503) /\
  posts (snd (fetch Demo.collaborators
                    (Demo.listing_only 503 "Service Unavailable")
                    0 "two-sum" Demo.fresh))
  = posts Demo.fresh.
Proof.
  pose proof (fetch_stops_at_loader
                Demo.collaborators
                (Demo.listing_only 503 "Service Unavailable")
                0 "two-sum" Demo.fresh (HTTPError 503) eq_refl) as H.
  split; [exact (proj1 H) | exact (proj1 (proj2 H))].
Defined.

(** ** A body without a question *)

(** X10.  When the decoded body of a good answer has under [data] a
    [question] that is not an object, as the [null] an unknown slug is
    answered with, [scrape] raises a [TypeError] at the first field it
    reads: right after the decoding, with no warning and no record. *)
Theorem scrape_without_question C U k fuel st rd data question :
  let r := detail U (titleSlug (self st)) (posts st + k) in
  (forall i, (i < k)%nat ->
     in_retry_statuses
       (status_code (detail U (titleSlug (self st)) (posts st + i))) = true) ->
  ok r = true ->
  json_loads C (text r) = Some rd ->
  Py.getitem rd "data" = Ret data ->
  Py.getitem data "question" = Ret question ->
  (forall members, question <> JObj members) ->
  (k <= fuel)%nat ->
  scrape C U fuel st = (Raise TypeError, decoded st (titleSlug (self st)) k).
Proof.
  intros r Hall Hok Hsome Hdata Hq Hshape Hfuel.
  rewrite (scrape_skip C U k fuel st Hall (ok_not_retried _ Hok) Hfuel).
  rewrite scrape_first_ok by exact Hok.
  cbn [self posts skipped]. fold r. rewrite Hsome, decoded_skipped.
  unfold assemble, bind, lift, question_field. rewrite Hdata. cbn [rbind].
  rewrite Hq. cbn [rbind].
  destruct question; try reflexivity.
  exfalso. exact (Hshape members eq_refl).
Qed.

Lemma scrape_without_question_witness :
  scrape (mkCollaborators
            (fun _ => Some (JObj [("data", JObj [("question", JNull)])]))
            (fun s => s) (fun t a => t ++ a) "" "")
         (Demo.steady "LISTING" "UNKNOWN") 0 Demo.ready
  = (Raise TypeError, decoded Demo.ready "two-sum" 0).
Proof.
  refine (scrape_without_question
            (mkCollaborators
               (fun _ => Some (JObj [("data", JObj [("question", JNull)])]))
               (fun s => s) (fun t a => t ++ a) "" "")
            (Demo.steady "LISTING" "UNKNOWN") 0 0 Demo.ready
            (JObj [("data", JObj [("question", JNull)])])
            (JObj [("question", JNull)]) JNull
            _ eq_refl eq_refl eq_refl eq_refl _ (le_n 0)).
  - intros i Hi. lia.
  - intros members H. discriminate H.
Defined.

(** ** Which exceptions come out *)

Lemma rbind_raises {A B : Type} (P : exn -> Prop) (r : res A) (f : A -> res B) e :
  (forall e', r = Raise e' -> P e') ->
  (forall a e', f a = Raise e' -> P e') ->
  rbind r f = Raise e -> P e.
Proof.
  intros Hr Hf. destruct r as [a | e' |]; simpl; intro H.
  - exact (Hf a e H).
  - inversion H; subst. apply Hr. reflexivity.
  - discriminate H.
Qed.

Lemma rmap_raises {A B : Type} (P : exn -> Prop) (f : A -> res B) l :
  (forall a e', f a = Raise e' -> P e') ->
  forall e, rmap f l = Raise e -> P e.
Proof.
  intro Hf. induction l as [| a l IH]; simpl; intro e; [discriminate | ].
  apply rbind_raises; [apply Hf | intros b e' ].
  apply rbind_raises; [exact IH | discriminate].
Qed.

Lemma rfilter_raises {A : Type} (P : exn -> Prop) (p : A -> res bool) l :
  (forall a e', p a = Raise e' -> P e') ->
  forall e, rfilter p l = Raise e -> P e.
Proof.
  intro Hp. induction l as [| a l IH]; simpl; intro e; [discriminate | ].
  apply rbind_raises; [apply Hp | intros b e' ].
  apply rbind_raises; [exact IH | discriminate].
Qed.

Lemma getitem_raises d k e : Py.getitem d k = Raise e -> key_or_type e.
Proof.
  destruct d; simpl; intro H; try (inversion H; exact I).
  destruct (Py.assoc k members); inversion H. exact I.
Qed.

Lemma iter_raises v e : Py.iter v = Raise e -> key_or_type e.
Proof. destruct v; simpl; intro H; inversion H; exact I. Qed.

Lemma question_field_raises rd field e :
  question_field rd field = Raise e -> key_or_type e.
Proof.
  unfold question_field.
  apply rbind_raises; [apply getitem_raises | intros data e' ].
  apply rbind_raises; [apply getitem_raises | intros q e'' ].
  apply getitem_raises.
Qed.

Lemma loc_QID_raises frame label e :
  pd.loc_QID frame label = Raise e -> key_or_type e.
Proof.
  destruct label; simpl; intro H; try (inversion H; exact I).
  destruct (pd.rows_at frame s) as [| q [| q' qs]]; inversion H. exact I.
Qed.

Lemma loads_raises C v e :
  loads C v = Raise e ->
  key_or_type e \/
  (e = JSONDecodeError /\ exists s, v = JStr s /\ json_loads C s = None).
Proof.
  destruct v; simpl; intro H; try (inversion H; left; exact I).
  destruct (json_loads C s) eqn:E; inversion H.
  right. split; [reflexivity | ]. exists s. split; [reflexivity | exact E].
Qed.

Lemma raises_ret {A : Type} P (a : A) : raises_only P (ret a).
Proof. intros st e st' H. discriminate H. Qed.

Lemma raises_emit P ev : raises_only P (emit ev).
Proof. intros st e st' H. discriminate H. Qed.

Lemma raises_get_self P : raises_only P get_self.
Proof. intros st e st' H. discriminate H. Qed.

Lemma raises_lift {A : Type} (P : exn -> Prop) (r : res A) :
  (forall e, r = Raise e -> P e) -> raises_only P (lift r).
Proof. intros Hr st e st' H. apply Hr. inversion H. reflexivity. Qed.

Lemma raises_bind {A B : Type} P (m : M A) (f : A -> M B) :
  raises_only P m -> (forall a, raises_only P (f a)) ->
  raises_only P (bind m f).
Proof.
  intros Hm Hf st e st'. unfold bind.
  destruct (m st) as [[a | e' |] s] eqn:E; intro H.
  - exact (Hf a s e st' H).
  - inversion H; subst. exact (Hm st e st' E).
  - discriminate H.
Qed.

Lemma raises_if {A : Type} P (b : bool) (m1 m2 : M A) :
  raises_only P m1 -> raises_only P m2 -> raises_only P (if b then m1 else m2).
Proof. destruct b; intros; assumption. Qed.

Lemma raises_weaken {A : Type} (P Q : exn -> Prop) (m : M A) :
  (forall e, P e -> Q e) -> raises_only P m -> raises_only Q m.
Proof. intros HPQ Hm st e st' H. apply HPQ. exact (Hm st e st' H). Qed.

Lemma body_raises rd : raises_only key_or_type (_get_question_body rd).
Proof.
  unfold _get_question_body, warnings_warn.
  apply raises_bind; [apply raises_lift, question_field_raises | intro paid].
  apply raises_if; [apply raises_lift, question_field_raises | ].
  apply raises_bind; [apply raises_emit | intro; apply raises_ret].
Qed.

Lemma code_raises C rd : raises_only key_or_type (_get_code_snippet C rd).
Proof.
  unfold _get_code_snippet, warnings_warn.
  apply raises_bind; [apply raises_lift, question_field_raises | intro paid].
  apply raises_bind; [apply raises_get_self | intro o].
  apply raises_if.
  - apply raises_bind;
      [apply raises_lift, question_field_raises | intro snippets].
    apply raises_bind; [apply raises_lift, iter_raises | intro entries].
    apply raises_bind.
    + apply raises_lift. apply rfilter_raises. intros c e.
      apply rbind_raises; [apply getitem_raises | discriminate].
    + intros [| first rest]; [apply raises_ret | ].
      apply raises_lift, getitem_raises.
  - apply raises_bind; [apply raises_emit | intro; apply raises_ret].
Qed.

Lemma similar_raises C rd :
  raises_only (assemble_exn C rd) (_get_similar_questions C rd).
Proof.
  intros st e st'.
  unfold _get_similar_questions, bind, lift, get_self.
  destruct (question_field rd "similarQuestions") as [payload | e0 |] eqn:Ep.
  - destruct (loads C payload) as [parsed | e1 |] eqn:El.
    + destruct (Py.iter parsed) as [entries | e2 |] eqn:Ei.
      * intro H. left. inversion H as [[Hr Hs]].
        revert Hr. apply rmap_raises. intros qs e'.
        apply rbind_raises; [apply getitem_raises | intros; eapply loc_QID_raises; eassumption].
      * intro H. inversion H; subst. left. exact (iter_raises _ _ Ei).
      * discriminate.
    + intro H. inversion H; subst.
      destruct (loads_raises _ _ _ El) as [Hk | (-> & s & -> & Hnone)];
        [left; exact Hk | ].
      right. split; [reflexivity | ]. exists s. split; [exact Ep | exact Hnone].
    + discriminate.
  - intro H. inversion H; subst. left. exact (question_field_raises _ _ _ Ep).
  - discriminate.
Qed.

Lemma assemble_raises C rd : raises_only (assemble_exn C rd) (assemble C rd).
Proof.
  assert (W : forall e, key_or_type e -> assemble_exn C rd e)
    by (intros e He; left; exact He).
  unfold assemble.
  repeat first
    [ apply raises_ret
    | apply similar_raises
    | apply (raises_weaken _ _ _ W); apply body_raises
    | apply (raises_weaken _ _ _ W); apply code_raises
    | apply raises_get_self
    | apply raises_lift; intros e He; apply W; revert e He;
      first [ apply question_field_raises | apply iter_raises
            | apply (rmap_raises key_or_type); intros ? ?;
              apply getitem_raises ]
    | apply raises_bind; [ | intro ] ].
Qed.

Lemma scrape_settled_form C U fuel st :
  fst (scrape C U fuel st) <> OutOfFuel ->
  exists k,
    (k <= fuel)%nat /\
    in_retry_statuses
      (status_code (detail U (titleSlug (self st)) (posts st + k))) = false /\
    scrape C U fuel st = scrape C U 0 (skipped st (titleSlug (self st)) k).
Proof.
  intro Hend.
  destruct (scrape_settled_inv C U fuel st Hend) as (k0 & Hk0 & Hr0).
  destruct (least_false
              (fun i => in_retry_statuses
                          (status_code
                             (detail U (titleSlug (self st)) (posts st + i))))
              (S k0)) as [Hall | (k & Hk & Hf & Hall)].
  { rewrite Hall in Hr0 by lia. discriminate Hr0. }
  exists k. split; [lia | split; [exact Hf | ] ].
  apply scrape_skip; [exact Hall | exact Hf | lia].
Qed.

Lemma scrape_Raise_inv C U fuel st e st' :
  scrape C U fuel st = (Raise e, st') ->
  e = ValueError not_found_msg \/
  exists n,
    e = ValueError (error_status_msg (detail U (titleSlug (self st)) n)) \/
    e = ValueError (parse_failure_msg (detail U (titleSlug (self st)) n)) \/
    exists rd,
      json_loads C (text (detail U (titleSlug (self st)) n)) = Some rd /\
      assemble_exn C rd e.
Proof.
  intro H.
  assert (Hend : fst (scrape C U fuel st) <> OutOfFuel)
    by (rewrite H; discriminate).
  destruct (scrape_settled_form C U fuel st Hend) as (k & _ & Hf & E).
  rewrite E in H. clear E Hend.
  set (r := detail U (titleSlug (self st)) (posts st + k)) in *.
  destruct (status_code r =? 404) eqn:E404.
  { apply Z.eqb_eq in E404. rewrite scrape_first_404 in H by exact E404.
    inversion H. left. reflexivity. }
  apply Z.eqb_neq in E404. right. exists (posts st + k)%nat. fold r.
  destruct (ok r) eqn:Hok.
  - rewrite scrape_first_ok in H by exact Hok.
    cbn [self posts skipped] in H. fold r in H.
    destruct (json_loads C (text r)) as [rd | ] eqn:Hrd.
    + right. right. exists rd. split; [reflexivity | ].
      exact (assemble_raises C rd _ _ _ H).
    + inversion H. right. left. reflexivity.
  - rewrite scrape_first_error in H by assumption.
    cbn [self posts skipped] in H. fold r in H.
    inversion H. left. reflexivity.
Qed.

(** X12.  The decode error of [json.loads] leaves [scrape] in one case
    only: the body of an answer decoded, and its [similarQuestions] is a
    string that does not decode.  (An answer whose own body does not
    decode gives a [ValueError] instead.) *)
Theorem scrape_decode_error_origin C U fuel st st' :
  scrape C U fuel st = (Raise JSONDecodeError, st') ->
  exists n rd payload,
    json_loads C (text (detail U (titleSlug (self st)) n)) = Some rd /\
    question_field rd "similarQuestions" = Ret (JStr payload) /\
    json_loads C payload = None.
Proof.
  intro H.
  destruct (scrape_Raise_inv _ _ _ _ _ _ H)
    as [E | (n & [E | [E | (rd & Hrd & [Hk | (_ & payload & Hp & Hnone)])]])];
    try discriminate E.
  - contradiction Hk.
  - exists n, rd, payload. repeat split; assumption.
Qed.

Lemma scrape_decode_error_origin_witness :
  exists n rd payload,
    json_loads Demo.collaborators
      (text (detail (Demo.steady "LISTING" "FREE-NO-STUB") "two-sum" n))
    = Some rd /\
    question_field rd "similarQuestions" = Ret (JStr payload) /\
    json_loads
      (mkCollaborators
         (fun s => if String.eqb s "[3sum]" then None else Demo.json_loads s)
         (fun s => s) (fun t a => t ++ a) "" "") payload = None.
Proof.
  destruct (scrape_decode_error_origin
              (mkCollaborators
                 (fun s => if String.eqb s "[3sum]" then None
                           else Demo.json_loads s)
                 (fun s => s) (fun t a => t ++ a) "" "")
              (Demo.steady "LISTING" "FREE-NO-STUB") 0 Demo.ready _ eq_refl)
    as (n & rd & payload & Hrd & Hp & Hnone).
  exists n, rd, payload. split; [exact Hrd | split; [exact Hp | exact Hnone] ].
Defined.

(** ** The discipline of the retries *)

Lemma while_retry_turns U slug fuel : forall r s,
  exists k, (k <= fuel)%nat /\ snd (while_retry U fuel slug r s) = turned s slug k.
Proof.
  induction fuel as [| fuel IH]; intros r s;
    destruct (in_retry_statuses (status_code r)) eqn:Hbusy;
    try (exists 0%nat; split; [lia | ];
         rewrite while_retry_exit by exact Hbusy;
         unfold turned; simpl; rewrite Nat.add_0_r, app_nil_r;
         destruct s; reflexivity).
  - exists 0%nat. split; [lia | ]. unfold while_retry. rewrite Hbusy.
    unfold turned. simpl. rewrite Nat.add_0_r, app_nil_r.
    destruct s; reflexivity.
  - rewrite while_retry_step by exact Hbusy.
    destruct (status_code (detail U slug (posts s)) =? 404).
    + exists 1%nat. split; [lia | reflexivity].
    + destruct (IH (detail U slug (posts s)) (turned s slug 1)) as (k & Hk & E).
      exists (S k). split; [lia | ]. rewrite E. apply turned_turned.
Qed.

Lemma turned_sent st slug k :
  turned (sent st slug 0) slug k = sent st slug k.
Proof.
  unfold turned, sent. simpl. apply state_eq; [lia | ].
  rewrite <- app_assoc. reflexivity.
Qed.

(** X14.  However a call of [scrape] ends, or while it still goes on,
    what it has sent to the detail endpoint is the request followed by
    [k] times a sleep of 10 seconds and the request again, for some [k]
    up to the fuel: it never sleeps without sending again, never sends
    again without having slept, and after the last request nothing more
    goes to the endpoint. *)
Theorem scrape_retry_discipline C U fuel st :
  exists k more,
    (k <= fuel)%nat /\
    posts (snd (scrape C U fuel st)) = (posts st + S k)%nat /\
    trace (snd (scrape C U fuel st))
    = (trace st
       ++ (Post BASE_URL (titleSlug (self st))
           :: retries (titleSlug (self st)) k)
       ++ more)%list /\
    forallb (fun e => negb (is_detail_traffic e)) more = true.
Proof.
  start_scrape st.
  match goal with
  | |- context [bind _ (fun _ => bind _ ?K)] => set (rest := K)
  end.
  assert (Hrest : forall r, quiet posts is_detail_traffic (rest r)).
  { intro r. unfold rest, response_json, _get_question_body,
      _get_code_snippet, _get_similar_questions, warnings_warn.
    quiet posts_ignores_trace. }
  unfold bind, ret.
  destruct (status_code (detail U (titleSlug (self st)) (posts st)) =? 404).
  - exists 0%nat, []. simpl. repeat split. lia.
  - destruct (while_retry_turns U (titleSlug (self st)) fuel
                (detail U (titleSlug (self st)) (posts st))
                (sent st (titleSlug (self st)) 0)) as (k & Hk & E).
    rewrite turned_sent in E.
    destruct (while_retry U fuel (titleSlug (self st))
                (detail U (titleSlug (self st)) (posts st))
                (sent st (titleSlug (self st)) 0)) as [[r | e |] s];
      simpl in E; subst s.
    + destruct (Hrest r (sent st (titleSlug (self st)) k))
        as (Hp & more & Ht & Hb).
      exists k, more. rewrite Hp, Ht. simpl.
      rewrite <- app_assoc. repeat split; [exact Hk | exact Hb].
    + exists k, []. simpl. rewrite app_nil_r. repeat split. exact Hk.
    + exists k, []. simpl. rewrite app_nil_r. repeat split. exact Hk.
Qed.
